(** * PRIME buffer sharing: drivers/gpu/drm/drm_prime.c

    A shallow embedding of the DRM PRIME core (export of a GEM object as a
    dma-buf file descriptor, import of a dma-buf as a GEM handle, the
    per-file registry that deduplicates imports, and the scatter-table
    helper), and the properties its specification states about it.

    The kernel objects the file works on are kept in an explicit [world]:
    the per-file registry list, the GEM object heap, the dma-buf reference
    counts and a log of the calls made to collaborators.  What the
    collaborators answer in one ioctl (the transport, the handle table, the
    slab allocator) is an [env] passed to that ioctl; what the driver
    callbacks answer is part of the [drm_device] passed to it. *)

From stdpp Require Import base gmap list.

Local Open Scope Z_scope.

(** ** Pointers that carry an errno (linux/err.h) *)

Module Err.

(** Modelled from the spec: linux/err.h is not part of the sources at
    hand.  The spec's "fails or returns a null/invalid result" is the
    kernel's pointer-or-errno convention: the last [MAX_ERRNO] addresses
    stand for negative errno values, [PTR_ERR] is the cast of the pointer
    to [long], [ERR_PTR] the cast back.  OMAP4 is a 32-bit ARM, so a
    pointer and a [long] have [BITS_PER_LONG = 32] bits. *)
Definition BITS_PER_LONG : Z := 32.
Definition MAX_ERRNO : Z := 4095.

(** [(unsigned long) x] *)
Definition to_ulong (x : Z) : Z := x mod 2 ^ BITS_PER_LONG.

(** [(long) x] *)
Definition to_long (x : Z) : Z :=
  let u := to_ulong x in
  if u <? 2 ^ (BITS_PER_LONG - 1) then u else u - 2 ^ BITS_PER_LONG.

Definition IS_ERR_VALUE (x : Z) : bool := to_ulong (- MAX_ERRNO) <=? x.
Definition ERR_PTR (error : Z) : Z := to_ulong error.
Definition PTR_ERR (ptr : Z) : Z := to_long ptr.
Definition IS_ERR (ptr : Z) : bool := IS_ERR_VALUE (to_ulong ptr).
Definition IS_ERR_OR_NULL (ptr : Z) : bool :=
  (ptr =? 0) || IS_ERR_VALUE (to_ulong ptr).

Definition NULL : Z := 0.

(** errno values used by drm_prime.c (asm-generic/errno-base.h, errno.h) *)
Definition ENOENT : Z := 2.
Definition ENOMEM : Z := 12.
Definition EINVAL : Z := 22.
Definition ENOSYS : Z := 38.

(** A machine address. *)
Definition is_ptr (p : Z) : Prop := 0 <= p < 2 ^ BITS_PER_LONG.

End Err.
Import Err.

(** ** Data *)

(** [struct drm_prime_member]: the list node is the position in the list. *)
Record drm_prime_member := Member {
  member_dma_buf : Z;   (* struct dma_buf *dma_buf *)
  member_handle : Z     (* uint32_t handle *)
}.

(** [struct drm_prime_handle], the ioctl argument. *)
Record drm_prime_handle := Args {
  args_handle : Z;      (* __u32 handle *)
  args_flags : Z;       (* __u32 flags *)
  args_fd : Z           (* __s32 fd *)
}.

Definition set_args_handle (h : Z) (a : drm_prime_handle) : drm_prime_handle :=
  {| args_handle := h; args_flags := args_flags a; args_fd := args_fd a |}.
Definition set_args_fd (fd : Z) (a : drm_prime_handle) : drm_prime_handle :=
  {| args_handle := args_handle a; args_flags := args_flags a; args_fd := fd |}.

(** The fields of [struct drm_gem_object] that drm_prime.c and the
    reference helpers it calls touch. *)
Record drm_gem_object := GemObject {
  refcount : Z;         (* struct kref refcount *)
  handle_count : Z;     (* atomic_t handle_count *)
  export_dma_buf : Z;   (* struct dma_buf *export_dma_buf *)
  import_attach : Z     (* struct dma_buf_attachment *import_attach *)
}.

Definition set_export_dma_buf (p : Z) (o : drm_gem_object) : drm_gem_object :=
  {| refcount := refcount o; handle_count := handle_count o;
     export_dma_buf := p; import_attach := import_attach o |}.
Definition add_refcount (d : Z) (o : drm_gem_object) : drm_gem_object :=
  {| refcount := refcount o + d; handle_count := handle_count o;
     export_dma_buf := export_dma_buf o; import_attach := import_attach o |}.
Definition add_handle_count (d : Z) (o : drm_gem_object) : drm_gem_object :=
  {| refcount := refcount o; handle_count := handle_count o + d;
     export_dma_buf := export_dma_buf o; import_attach := import_attach o |}.

(** [struct drm_device], as far as the two ioctls read it:
    [dev->driver->driver_features] and the two PRIME callbacks, a null
    function pointer being [None].  A callback is known by what it answers
    when called. *)
Record drm_device := Device {
  driver_features : Z;
  prime_export : option (Z -> Z -> Z);   (* obj, flags |-> dma_buf *)
  prime_import : option (Z -> Z)         (* dma_buf |-> obj *)
}.

(** Modelled from the spec: drmP.h is not part of the sources at hand.
    [DRIVER_PRIME] is the bit of [driver_features] that says the PRIME
    "feature [is] enabled". *)
Definition DRIVER_PRIME : Z := 0x4000.

(** Modelled from the spec: drmP.h is not part of the sources at hand.
    The feature is enabled when its bit is set:
    [((dev->driver->driver_features & feature) ? 1 : 0)]. *)
Definition drm_core_check_feature (dev : drm_device) (feature : Z) : bool :=
  negb (Z.land (driver_features dev) feature =? 0).

(** Calls made to the collaborators, in the order they happen. *)
Inductive call :=
| call_dma_buf_get (fd : Z)
| call_dma_buf_put (dma_buf : Z)
| call_dma_buf_fd (dma_buf : Z)
| call_prime_export (obj flags : Z)
| call_prime_import (dma_buf : Z)
| call_gem_object_lookup (handle : Z)
| call_gem_handle_create (obj : Z)
| call_gem_object_unreference (obj : Z)
| call_gem_object_handle_unreference (obj : Z).

Record world := World {
  object_idr : gmap Z Z;                (* file_priv->object_idr: handle |-> obj *)
  prime_head : list drm_prime_member;   (* file_priv->prime.head, first node first *)
  gem_objects : gmap Z drm_gem_object;  (* the GEM objects alive, by address *)
  dma_bufs : gmap Z Z;                  (* dma_buf |-> reference count of its file *)
  slab : Z;                             (* blocks obtained from kmalloc and not yet freed *)
  calls : list call
}.

(** What the collaborators answer during one ioctl. *)
Record env := Env {
  env_dma_buf_get : Z -> Z;             (* fd |-> dma_buf or ERR_PTR *)
  env_dma_buf_fd : Z -> Z;              (* dma_buf |-> fd or -errno *)
  env_gem_handle_create : Z -> Z * Z;   (* obj |-> return value, new handle *)
  env_kmalloc : bool                    (* does the allocation succeed *)
}.

Definition set_object_idr (m : gmap Z Z) (w : world) : world :=
  {| object_idr := m; prime_head := prime_head w; gem_objects := gem_objects w;
     dma_bufs := dma_bufs w; slab := slab w; calls := calls w |}.
Definition set_prime_head (l : list drm_prime_member) (w : world) : world :=
  {| object_idr := object_idr w; prime_head := l; gem_objects := gem_objects w;
     dma_bufs := dma_bufs w; slab := slab w; calls := calls w |}.
Definition set_gem_objects (m : gmap Z drm_gem_object) (w : world) : world :=
  {| object_idr := object_idr w; prime_head := prime_head w; gem_objects := m;
     dma_bufs := dma_bufs w; slab := slab w; calls := calls w |}.
Definition set_dma_bufs (m : gmap Z Z) (w : world) : world :=
  {| object_idr := object_idr w; prime_head := prime_head w;
     gem_objects := gem_objects w; dma_bufs := m; slab := slab w;
     calls := calls w |}.
Definition set_slab (n : Z) (w : world) : world :=
  {| object_idr := object_idr w; prime_head := prime_head w;
     gem_objects := gem_objects w; dma_bufs := dma_bufs w; slab := n;
     calls := calls w |}.
Definition log (c : call) (w : world) : world :=
  {| object_idr := object_idr w; prime_head := prime_head w;
     gem_objects := gem_objects w; dma_bufs := dma_bufs w; slab := slab w;
     calls := calls w ++ [c] |}.

(** ** The collaborators

    None of these is defined in drm_prime.c.  Each is modelled, from the
    interface the specification gives for it, by its effect on the
    reference counts; the value it returns is the one the [env] (or the
    driver callback) gives. *)

Module Collaborators.

(** Modelled from the spec: [dma_buf_get] (dma-buf.c, not part of the
    sources at hand) is the transport's "resolve(descriptor) (acquires a
    reference)"; the answer is an errno pointer when the descriptor is
    invalid. *)
Definition dma_buf_get (e : env) (fd : Z) (w : world) : Z * world :=
  let dma_buf := env_dma_buf_get e fd in
  let w := log (call_dma_buf_get fd) w in
  if IS_ERR dma_buf then (dma_buf, w)
  else (dma_buf, set_dma_bufs (alter (λ n, n + 1) dma_buf (dma_bufs w)) w).

(** Modelled from the spec: [dma_buf_put] (dma-buf.c, not part of the
    sources at hand) is the transport's "release(handle)". *)
Definition dma_buf_put (dma_buf : Z) (w : world) : world :=
  let w := log (call_dma_buf_put dma_buf) w in
  set_dma_bufs (alter (λ n, n - 1) dma_buf (dma_bufs w)) w.

(** Modelled from the spec: [dma_buf_fd] (dma-buf.c, not part of the
    sources at hand) is the transport's "to_descriptor(handle) (acquires a
    reference transferred to the descriptor)"; a negative answer is an
    errno. *)
Definition dma_buf_fd (e : env) (dma_buf : Z) (w : world) : Z * world :=
  let fd := env_dma_buf_fd e dma_buf in
  let w := log (call_dma_buf_fd dma_buf) w in
  if fd <? 0 then (fd, w)
  else (fd, set_dma_bufs (alter (λ n, n + 1) dma_buf (dma_bufs w)) w).

(** Modelled from the spec: [drm_gem_object_lookup] (drm_gem.c, not part
    of the sources at hand) is the handle table's "lookup_object(session,
    local_handle)"; the caller owns a reference on the object it returns,
    and NULL is returned when the handle names nothing. *)
Definition drm_gem_object_lookup (handle : Z) (w : world) : Z * world :=
  let w := log (call_gem_object_lookup handle) w in
  match object_idr w !! handle with
  | None => (NULL, w)
  | Some obj =>
      (obj, set_gem_objects (alter (add_refcount 1) obj (gem_objects w)) w)
  end.

(** Modelled from the spec: [drm_gem_object_unreference_unlocked] (drmP.h,
    not part of the sources at hand) is the handle table's "object
    reference decrement". *)
Definition drm_gem_object_unreference_unlocked (obj : Z) (w : world) : world :=
  let w := log (call_gem_object_unreference obj) w in
  set_gem_objects (alter (add_refcount (-1)) obj (gem_objects w)) w.

(** Modelled from the spec: [drm_gem_object_handle_unreference_unlocked]
    (drmP.h, not part of the sources at hand) releases what a handle holds
    on its object: one handle count and the reference that went with it. *)
Definition drm_gem_object_handle_unreference_unlocked (obj : Z) (w : world)
    : world :=
  let w := log (call_gem_object_handle_unreference obj) w in
  set_gem_objects
    (alter (λ o, add_refcount (-1) (add_handle_count (-1) o)) obj
           (gem_objects w)) w.

(** Modelled from the spec: [drm_gem_handle_create] (drm_gem.c, not part
    of the sources at hand) is the handle table's "create_handle(session,
    object)"; the new handle holds a handle count and a reference of its
    own on the object. *)
Definition drm_gem_handle_create (e : env) (obj : Z) (w : world)
    : Z * Z * world :=
  let '(ret, handle) := env_gem_handle_create e obj in
  let w := log (call_gem_handle_create obj) w in
  if ret =? 0 then
    let w := set_object_idr (<[handle := obj]> (object_idr w)) w in
    (ret, handle,
     set_gem_objects
       (alter (λ o, add_refcount 1 (add_handle_count 1 o)) obj
              (gem_objects w)) w)
  else (ret, handle, w).

(** [dev->driver->prime_export(dev, obj, flags)] *)
Definition invoke_prime_export (export : Z -> Z -> Z) (obj flags : Z)
    (w : world) : Z * world :=
  (export obj flags, log (call_prime_export obj flags) w).

(** [dev->driver->prime_import(dev, dma_buf)] *)
Definition invoke_prime_import (import : Z -> Z) (dma_buf : Z) (w : world)
    : Z * world :=
  (import dma_buf, log (call_prime_import dma_buf) w).

(** Modelled from the spec: the slab allocator is not part of the sources
    at hand.  [kmalloc] of one block, which can fail ("OutOfMemory"). *)
Definition kmalloc (e : env) (w : world) : bool * world :=
  if env_kmalloc e then (true, set_slab (slab w + 1) w) else (false, w).

(** Modelled from the spec: the slab allocator is not part of the sources
    at hand.  [kfree] of one block. *)
Definition kfree (w : world) : world := set_slab (slab w - 1) w.

End Collaborators.
Import Collaborators.

(** ** The registry of imported buffers (drm_prime.c, lines 139-195) *)

(** [INIT_LIST_HEAD(&prime_fpriv->head)] *)
Definition drm_prime_init_file_private (w : world) : world :=
  set_prime_head [] w.

(** The loop of [drm_prime_destroy_file_private]: every node is unlinked
    and freed. *)
Fixpoint destroy_members (head : list drm_prime_member) (w : world) : world :=
  match head with
  | [] => w
  | member :: rest =>
      (* list_del(&member->entry); kfree(member); *)
      destroy_members rest (kfree (set_prime_head rest w))
  end.

Definition drm_prime_destroy_file_private (w : world) : world :=
  destroy_members (prime_head w) w.

(** [list_add] links the new node right after the list head. *)
Definition drm_prime_insert_fd_handle_mapping (e : env) (dma_buf handle : Z)
    (w : world) : Z * world :=
  let '(ok, w) := kmalloc e w in
  if negb ok then (- ENOMEM, w)
  else
    let member := {| member_dma_buf := dma_buf; member_handle := handle |} in
    (0, set_prime_head (member :: prime_head w) w).

(** The scan of [drm_prime_lookup_fd_handle_mapping]: the return value, and
    what is stored through [handle] when something is. *)
Fixpoint lookup_members (head : list drm_prime_member) (dma_buf : Z)
    : Z * option Z :=
  match head with
  | [] => (- ENOENT, None)
  | member :: rest =>
      if member_dma_buf member =? dma_buf then (0, Some (member_handle member))
      else lookup_members rest dma_buf
  end.

Definition drm_prime_lookup_fd_handle_mapping (w : world) (dma_buf : Z)
    : Z * option Z :=
  lookup_members (prime_head w) dma_buf.

(** The loop of [drm_prime_remove_fd_handle_mapping]: the nodes kept, and
    how many were unlinked and freed. *)
Fixpoint remove_members (head : list drm_prime_member) (dma_buf : Z)
    : list drm_prime_member * Z :=
  match head with
  | [] => ([], 0)
  | member :: rest =>
      let '(kept, freed) := remove_members rest dma_buf in
      if member_dma_buf member =? dma_buf then (kept, freed + 1)
      else (member :: kept, freed)
  end.

Definition drm_prime_remove_fd_handle_mapping (w : world) (dma_buf : Z)
    : world :=
  let '(kept, freed) := remove_members (prime_head w) dma_buf in
  set_slab (slab w - freed) (set_prime_head kept w).

(** ** Export (drm_prime.c, lines 11-43)

    [None] stands for the one thing the C function can do that has no
    meaning: reading a field of an object that is not alive. *)
Definition drm_prime_handle_to_fd_ioctl (dev : drm_device) (e : env)
    (args : drm_prime_handle) (w : world)
    : option (Z * drm_prime_handle * world) :=
  if negb (drm_core_check_feature dev DRIVER_PRIME) then
    Some (- EINVAL, args, w)
  else
    match prime_export dev with
    | None => Some (- ENOSYS, args, w)
    | Some export =>
        let '(obj, w) := drm_gem_object_lookup (args_handle args) w in
        if obj =? NULL then Some (- ENOENT, args, w)
        else
          o ← gem_objects w !! obj;
          let wrapped :=
            if negb (export_dma_buf o =? NULL) then
              (* TODO what if flags have changed? *)
              inr w
            else
              let '(dma_buf, w) :=
                invoke_prime_export export obj (args_flags args) w in
              let w :=
                set_gem_objects
                  (<[obj := set_export_dma_buf dma_buf o]> (gem_objects w)) w in
              if IS_ERR_OR_NULL dma_buf then
                (* normally the created dma-buf takes ownership of the ref,
                   but if that fails then drop the ref *)
                let w := drm_gem_object_unreference_unlocked obj w in
                inl (PTR_ERR dma_buf, args, w)
              else inr w
          in
          match wrapped with
          | inl r => Some r
          | inr w =>
              o ← gem_objects w !! obj;
              let '(fd, w) := dma_buf_fd e (export_dma_buf o) w in
              Some (0, set_args_fd fd args, w)
          end
    end.

(** ** Import (drm_prime.c, lines 45-100) *)
Definition drm_prime_fd_to_handle_ioctl (dev : drm_device) (e : env)
    (args : drm_prime_handle) (w : world) : Z * drm_prime_handle * world :=
  if negb (drm_core_check_feature dev DRIVER_PRIME) then (- EINVAL, args, w)
  else
    match prime_import dev with
    | None => (- ENOSYS, args, w)
    | Some import =>
        let '(dma_buf, w) := dma_buf_get e (args_fd args) w in
        if IS_ERR dma_buf then (PTR_ERR dma_buf, args, w)
        else
          (* if (!ret): the lookup returns 0 exactly when it stores a
             handle *)
          match drm_prime_lookup_fd_handle_mapping w dma_buf with
          | (0, Some handle) =>
              let w := dma_buf_put dma_buf w in
              (0, set_args_handle handle args, w)
          | _ =>
              (* never seen this one, need to import *)
              let '(obj, w) := invoke_prime_import import dma_buf w in
              if IS_ERR_OR_NULL obj then
                let ret := PTR_ERR obj in
                (* fail_put: *)
                let w := dma_buf_put dma_buf w in
                (ret, args, w)
              else
                let '(ret, handle, w) := drm_gem_handle_create e obj w in
                let w := drm_gem_object_unreference_unlocked obj w in
                if negb (ret =? 0) then
                  (* fail_put: *)
                  let w := dma_buf_put dma_buf w in
                  (ret, args, w)
                else
                  let '(ret, w) :=
                    drm_prime_insert_fd_handle_mapping e dma_buf handle w in
                  if negb (ret =? 0) then
                    (* fail: *)
                    let w := drm_gem_object_handle_unreference_unlocked obj w in
                    (* fail_put: *)
                    let w := dma_buf_put dma_buf w in
                    (ret, args, w)
                  else (0, set_args_handle handle args, w)
          end
    end.

(** ** The scatter table of a page array (drm_prime.c, lines 102-124) *)

(** [struct scatterlist], the fields [sg_set_page] writes. *)
Record scatterlist := Scatterlist {
  sg_page : Z;          (* page_link *)
  sg_offset : Z;        (* unsigned int offset *)
  sg_length : Z         (* unsigned int length *)
}.

(** [struct sg_table] *)
Record sg_table := SgTable {
  sgl : list scatterlist;
  nents : Z;
  orig_nents : Z
}.

(** Modelled from the spec: asm/page.h is not part of the sources at hand;
    "the platform page size" of a 32-bit ARM is 4096 bytes. *)
Definition PAGE_SIZE : Z := 4096.

(** What the allocators answer during one call of the builder. *)
Record sg_env := SgEnv {
  env_kzalloc : bool;           (* does [kzalloc] of the sg_table succeed *)
  env_sg_alloc_table : Z        (* what [sg_alloc_table] returns *)
}.

Module Scatterlist.

(** Modelled from the spec: linux/scatterlist.h is not part of the
    sources at hand.  [sg_set_page] makes the segment cover [len] bytes
    of [page] from [offset]. *)
Definition sg_set_page (sg : scatterlist) (page len offset : Z)
    : scatterlist :=
  {| sg_page := page; sg_offset := offset; sg_length := len |}.

(** Modelled from the spec: lib/scatterlist.c is not part of the sources
    at hand.  [sg_alloc_table] either gives the table [nents] zeroed
    segments, held in one more block, or fails having freed what it had
    allocated ("the segment table ... cannot be allocated"). *)
Definition sg_alloc_table (a : sg_env) (n : nat) (w : world)
    : Z * sg_table * world :=
  let ret := env_sg_alloc_table a in
  if ret =? 0 then
    (ret, {| sgl := replicate n (Scatterlist 0 0 0);
             nents := Z.of_nat n; orig_nents := Z.of_nat n |},
     set_slab (slab w + 1) w)
  else (ret, {| sgl := []; nents := 0; orig_nents := 0 |}, w).

(** Modelled from the spec: the slab allocator is not part of the
    sources at hand.  [kzalloc] of one block. *)
Definition kzalloc (a : sg_env) (w : world) : bool * world :=
  if env_kzalloc a then (true, set_slab (slab w + 1) w) else (false, w).

End Scatterlist.
Import Scatterlist.

(** [for_each_sg(sg->sgl, iter, nr_pages, i) sg_set_page(iter, pages[i],
    PAGE_SIZE, 0);] with [i] the index reached and [iter] the segment at
    that index. *)
Fixpoint for_each_sg_set_page (sgl : list scatterlist) (pages : list Z)
    (i : nat) : list scatterlist :=
  match pages with
  | [] => sgl
  | page :: pages =>
      for_each_sg_set_page
        (alter (λ iter, sg_set_page iter page PAGE_SIZE 0) i sgl) pages (S i)
  end.

(** The array [pages] and its length [nr_pages] are one list. *)
Definition drm_prime_pages_to_sg (a : sg_env) (pages : list Z) (w : world)
    : option sg_table * world :=
  let nr_pages := length pages in
  let '(sg, w) := kzalloc a w in
  if negb sg then
    (* out: kfree(NULL) *)
    (None, w)
  else
    let '(ret, table, w) := sg_alloc_table a nr_pages w in
    if negb (ret =? 0) then
      (* out: kfree(sg) *)
      (None, kfree w)
    else
      (Some {| sgl := for_each_sg_set_page (sgl table) pages 0;
               nents := nents table; orig_nents := orig_nents table |}, w).

(** ** Sequences of registry operations *)

Inductive op :=
| op_import (dev : drm_device) (e : env) (args : drm_prime_handle)
| op_remove (dma_buf : Z)
| op_teardown.

Definition step (w : world) (o : op) : world :=
  match o with
  | op_import dev e args => (drm_prime_fd_to_handle_ioctl dev e args w).2
  | op_remove dma_buf => drm_prime_remove_fd_handle_mapping w dma_buf
  | op_teardown => drm_prime_destroy_file_private w
  end.

Definition run (ops : list op) (w : world) : world := foldl step w ops.

(** Number of registry nodes that carry [dma_buf]. *)
Fixpoint count_members (dma_buf : Z) (head : list drm_prime_member) : nat :=
  match head with
  | [] => 0%nat
  | member :: rest =>
      let this := if member_dma_buf member =? dma_buf then 1%nat else 0%nat in
      (this + count_members dma_buf rest)%nat
  end.

(** Number of logged calls that satisfy [p]. *)
Fixpoint count_calls (p : call -> bool) (l : list call) : nat :=
  match l with
  | [] => 0%nat
  | c :: l =>
      let this := if p c then 1%nat else 0%nat in
      (this + count_calls p l)%nat
  end.

Definition is_prime_import (c : call) : bool :=
  match c with call_prime_import _ => true | _ => false end.
Definition is_prime_export (c : call) : bool :=
  match c with call_prime_export _ _ => true | _ => false end.
Definition is_gem_handle_create (c : call) : bool :=
  match c with call_gem_handle_create _ => true | _ => false end.

(** Reference count of a dma-buf. *)
Definition dma_buf_refcount (w : world) (dma_buf : Z) : option Z :=
  dma_bufs w !! dma_buf.

(** Export called on [dev] once per element of [cs], in order: the
    results, oldest first. *)
Fixpoint export_calls (dev : drm_device)
    (cs : list (env * drm_prime_handle)) (w : world)
    : option (list (Z * drm_prime_handle) * world) :=
  match cs with
  | [] => Some ([], w)
  | (e, args) :: cs =>
      '(ret, args', w) ← drm_prime_handle_to_fd_ioctl dev e args w;
      '(rs, w) ← export_calls dev cs w;
      Some ((ret, args') :: rs, w)
  end.

(** The steps of Import at which a collaborator can fail once the
    registry has missed. *)
Inductive import_step :=
| step_driver_import      (* step 3: dev->driver->prime_import *)
| step_handle_create      (* step 4: drm_gem_handle_create *)
| step_registry_insert.   (* step 5: drm_prime_insert_fd_handle_mapping *)

(** The failure is at step [s], the steps before it having succeeded;
    [obj] is what the driver's import callback answers. *)
Definition fails_at (s : import_step) (e : env) (obj : Z) : Prop :=
  match s with
  | step_driver_import => IS_ERR_OR_NULL obj = true
  | step_handle_create =>
      IS_ERR_OR_NULL obj = false /\ (env_gem_handle_create e obj).1 <> 0
  | step_registry_insert =>
      IS_ERR_OR_NULL obj = false /\ (env_gem_handle_create e obj).1 = 0
      /\ env_kmalloc e = false
  end.

(** The calls a failed Import makes between resolving the descriptor and
    dropping the reference it took. *)
Definition rollback_calls (s : import_step) (dma_buf obj : Z) : list call :=
  match s with
  | step_driver_import => [call_prime_import dma_buf]
  | step_handle_create =>
      [call_prime_import dma_buf; call_gem_handle_create obj;
       call_gem_object_unreference obj]
  | step_registry_insert =>
      [call_prime_import dma_buf; call_gem_handle_create obj;
       call_gem_object_unreference obj;
       call_gem_object_handle_unreference obj]
  end.

(** ** A small session to run the code on *)

Module Example.

Definition buf : Z := 0xC0001000.       (* a dma-buf *)
Definition obj : Z := 0xC0002000.       (* the GEM object of handle 7 *)
Definition imported : Z := 0xC0004000.  (* what the driver imports *)

(** A driver whose callbacks succeed, one whose callbacks return NULL, and
    one whose callbacks return [ERR_PTR(-ENOMEM)]. *)
Definition driver : drm_device :=
  {| driver_features := DRIVER_PRIME;
     prime_export := Some (λ _ _, buf);
     prime_import := Some (λ _, imported) |}.
Definition null_driver : drm_device :=
  {| driver_features := DRIVER_PRIME;
     prime_export := Some (λ _ _, NULL);
     prime_import := Some (λ _, NULL) |}.
Definition errno_driver : drm_device :=
  {| driver_features := DRIVER_PRIME;
     prime_export := Some (λ _ _, ERR_PTR (- ENOMEM));
     prime_import := Some (λ _, ERR_PTR (- ENOMEM)) |}.

(** Every descriptor names [buf]; the handle table gives handle 1; the
    allocator does as told. *)
Definition answers (kmalloc_ok : bool) : env :=
  {| env_dma_buf_get := λ _, buf;
     env_dma_buf_fd := λ _, 3;
     env_gem_handle_create := λ _, (0, 1);
     env_kmalloc := kmalloc_ok |}.

(** [import_args] names descriptor 5, [export_args] names handle 7. *)
Definition import_args : drm_prime_handle :=
  {| args_handle := 0; args_flags := 0; args_fd := 5 |}.
Definition export_args : drm_prime_handle :=
  {| args_handle := 7; args_flags := 0; args_fd := 0 |}.

(** A session with an empty registry, one GEM object under handle 7 that
    has not been exported, and one dma-buf with one reference. *)
Definition session : world :=
  {| object_idr := {[ 7 := obj ]};
     prime_head := [];
     gem_objects :=
       {[ obj := {| refcount := 1; handle_count := 1;
                    export_dma_buf := NULL; import_attach := NULL |} ]};
     dma_bufs := {[ buf := 1 ]};
     slab := 0;
     calls := [] |}.

(** The same session once [buf] has been imported as handle 1. *)
Definition registered : world :=
  set_prime_head [{| member_dma_buf := buf; member_handle := 1 |}] session.

Definition ops : list op :=
  [op_import driver (answers true) import_args;
   op_import driver (answers true) import_args;
   op_remove buf;
   op_import driver (answers false) import_args;
   op_import driver (answers true) import_args;
   op_teardown].

End Example.

(** ** Release of an imported object (drm_prime.c, lines 127-137) *)

(** Calls made on the import attachment, in the order they happen. *)
Inductive attach_call :=
| call_dma_buf_unmap_attachment (attach sg direction : Z)
| call_dma_buf_detach (dmabuf attach : Z).

(** Modelled from the spec: linux/dma-direction.h is not part of the
    sources at hand; [DMA_BIDIRECTIONAL] is the first of its directions. *)
Definition DMA_BIDIRECTIONAL : Z := 0.

(** [attachments] gives, for every [struct dma_buf_attachment] alive, its
    [dmabuf] field.  [None] is a read through a pointer to nothing alive:
    an object that is not alive, or one whose [import_attach] names no
    attachment. *)
Definition drm_prime_gem_destroy (attachments : gmap Z Z) (obj sg : Z)
    (w : world) : option (list attach_call) :=
  o ← gem_objects w !! obj;
  let attach := import_attach o in
  let unmapped :=
    if negb (sg =? NULL) then
      [call_dma_buf_unmap_attachment attach sg DMA_BIDIRECTIONAL]
    else [] in
  dmabuf ← attachments !! attach;
  Some (unmapped ++ [call_dma_buf_detach dmabuf attach]).

(** ** More to state properties with *)

Definition set_args_flags (f : Z) (a : drm_prime_handle) : drm_prime_handle :=
  {| args_handle := args_handle a; args_flags := f; args_fd := args_fd a |}.

(** Number of bytes the segments of a table cover. *)
Fixpoint sg_bytes (l : list scatterlist) : Z :=
  match l with
  | [] => 0
  | sg :: l => sg_length sg + sg_bytes l
  end.

(** Is this a call of [dma_buf_put]? *)
Definition is_dma_buf_put (c : call) : bool :=
  match c with call_dma_buf_put _ => true | _ => false end.

(** More of the small session. *)
Module Sample.

Definition buf2 : Z := 0xC0005000.       (* a second dma-buf *)
Definition imported2 : Z := 0xC0006000.  (* what the driver imports for it *)
Definition attach : Z := 0xC0007000.     (* an import attachment *)

(** A device without the PRIME feature bit. *)
Definition plain_device : drm_device :=
  {| driver_features := 0;
     prime_export := Some (λ _ _, Example.buf);
     prime_import := Some (λ _, Example.imported) |}.

(** A driver that imports [buf2] as [imported2] and everything else as
    [Example.imported]. *)
Definition driver2 : drm_device :=
  {| driver_features := DRIVER_PRIME;
     prime_export := Some (λ _ _, Example.buf);
     prime_import :=
       Some (λ dma_buf,
               if dma_buf =? buf2 then imported2 else Example.imported) |}.

(** Every descriptor names [buf2]; the handle table gives handle 2. *)
Definition answers2 : env :=
  {| env_dma_buf_get := λ _, buf2;
     env_dma_buf_fd := λ _, 4;
     env_gem_handle_create := λ _, (0, 2);
     env_kmalloc := true |}.

(** No descriptor is valid: [ERR_PTR(-EBADF)]. *)
Definition bad_fd_answers : env :=
  {| env_dma_buf_get := λ _, ERR_PTR (- 9);
     env_dma_buf_fd := λ _, 3;
     env_gem_handle_create := λ _, (0, 1);
     env_kmalloc := true |}.

(** The session once the object of handle 7 has been exported as
    [Example.buf]. *)
Definition exported : world :=
  set_gem_objects
    {[ Example.obj := {| refcount := 2; handle_count := 1;
                         export_dma_buf := Example.buf;
                         import_attach := NULL |} ]} Example.session.

(** A session whose object at [Example.imported] was imported through
    [attach] from [Example.buf]. *)
Definition attached : world :=
  set_gem_objects
    {[ Example.imported := {| refcount := 1; handle_count := 1;
                              export_dma_buf := NULL;
                              import_attach := attach |} ]} Example.session.
Definition attachments : gmap Z Z := {[ attach := Example.buf ]}.

End Sample.

(** * Properties *)

(** ** Error pointers *)

Lemma PTR_ERR_NULL : PTR_ERR NULL = 0.
Proof. reflexivity. Qed.

Lemma IS_ERR_OR_NULL_NULL : IS_ERR_OR_NULL NULL = true.
Proof. reflexivity. Qed.

Lemma PTR_ERR_ERR_PTR (error : Z) :
  - MAX_ERRNO <= error < 0 -> PTR_ERR (ERR_PTR error) = error.
Proof.
  unfold PTR_ERR, ERR_PTR, to_long, to_ulong, MAX_ERRNO, BITS_PER_LONG.
  intros H.
  rewrite Z.mod_mod by lia.
  replace (error mod 2 ^ 32) with (error + 2 ^ 32).
  - destruct (Z.ltb_spec (error + 2 ^ 32) (2 ^ (32 - 1))); lia.
  - apply Z.mod_unique with (q := -1); lia.
Qed.

Lemma IS_ERR_ERR_PTR (error : Z) :
  - MAX_ERRNO <= error < 0 -> IS_ERR (ERR_PTR error) = true.
Proof.
  unfold IS_ERR, IS_ERR_VALUE, ERR_PTR.
  change (to_ulong (- MAX_ERRNO)) with 4294963201.
  unfold to_ulong, MAX_ERRNO, BITS_PER_LONG. intros H.
  rewrite Z.mod_mod by lia.
  replace (error mod 2 ^ 32) with (error + 2 ^ 32)
    by (apply Z.mod_unique with (q := -1); lia).
  apply Z.leb_le. lia.
Qed.

(** An error pointer never decodes to 0. *)
Lemma PTR_ERR_IS_ERR (ptr : Z) :
  is_ptr ptr -> IS_ERR ptr = true -> - MAX_ERRNO <= PTR_ERR ptr < 0.
Proof.
  unfold is_ptr, IS_ERR, IS_ERR_VALUE, PTR_ERR, to_long.
  change (to_ulong (- MAX_ERRNO)) with 4294963201.
  unfold to_ulong, MAX_ERRNO, BITS_PER_LONG.
  intros Hp H. rewrite Z.mod_small in * by lia.
  apply Z.leb_le in H.
  destruct (Z.ltb_spec ptr (2 ^ (32 - 1))); lia.
Qed.

(** ** The registry *)

Lemma lookup_members_ret (head : list drm_prime_member) (dma_buf : Z) :
  (lookup_members head dma_buf).1 = 0
  <-> is_Some (lookup_members head dma_buf).2.
Proof.
  induction head as [|member rest IH]; simpl.
  - split; [discriminate | intros [? ?]; discriminate].
  - destruct (member_dma_buf member =? dma_buf); simpl; [|exact IH].
    split; eauto.
Qed.

Lemma lookup_members_miss (head : list drm_prime_member) (dma_buf : Z) :
  count_members dma_buf head = 0%nat
  <-> lookup_members head dma_buf = (- ENOENT, None).
Proof.
  induction head as [|member rest IH]; simpl; [done|].
  destruct (member_dma_buf member =? dma_buf); simpl; [|exact IH].
  split; discriminate.
Qed.

Lemma lookup_members_cases (head : list drm_prime_member) (dma_buf : Z) :
  lookup_members head dma_buf = (- ENOENT, None)
  \/ exists handle, lookup_members head dma_buf = (0, Some handle).
Proof.
  induction head as [|member rest IH]; simpl; [by left|].
  destruct (member_dma_buf member =? dma_buf); [right; eauto | exact IH].
Qed.

Lemma destroy_members_prime_head (head : list drm_prime_member) (w : world) :
  prime_head w = head -> prime_head (destroy_members head w) = [].
Proof.
  revert w. induction head as [|member rest IH]; intros w Hw; simpl; [done|].
  by apply IH.
Qed.

Lemma destroy_members_slab (head : list drm_prime_member) (w : world) :
  slab (destroy_members head w) = slab w - Z.of_nat (length head).
Proof.
  revert w. induction head as [|member rest IH]; intros w; simpl; [lia|].
  rewrite IH. simpl. lia.
Qed.

Lemma alter_incr_decr (m : gmap Z Z) (k : Z) :
  alter (λ n, n - 1) k (alter (λ n, n + 1) k m) = m.
Proof.
  rewrite alter_alter_eq. apply alter_id. intros n _. simpl. lia.
Qed.

(** A reference taken by [dma_buf_get] and dropped by [dma_buf_put] leaves
    every count as it was. *)
Lemma dma_bufs_get_put (e : env) (fd : Z) (w : world) :
  IS_ERR (env_dma_buf_get e fd) = false ->
  dma_bufs (dma_buf_put (env_dma_buf_get e fd) (dma_buf_get e fd w).2)
  = dma_bufs w.
Proof.
  intros H. unfold dma_buf_get, dma_buf_put. rewrite H. simpl.
  apply alter_incr_decr.
Qed.

Lemma count_calls_app (p : call -> bool) (l1 l2 : list call) :
  count_calls p (l1 ++ l2) = (count_calls p l1 + count_calls p l2)%nat.
Proof. induction l1 as [|c l1 IH]; simpl; [done|]. rewrite IH. lia. Qed.

Lemma teardown_empty (w : world) :
  prime_head (drm_prime_destroy_file_private w) = []
  /\ slab (drm_prime_destroy_file_private w)
     = slab w - Z.of_nat (length (prime_head w)).
Proof.
  unfold drm_prime_destroy_file_private. split.
  - by apply destroy_members_prime_head.
  - apply destroy_members_slab.
Qed.

(** C7. After teardown ([drm_prime_destroy_file_private]) the lookup of
    every identity, previously inserted or not, finds no match (it returns
    -ENOENT and stores no handle): the registry list is empty, and every
    node it held has been freed. *)
Theorem teardown_lookup_misses (w : world) (dma_buf : Z) :
  drm_prime_lookup_fd_handle_mapping (drm_prime_destroy_file_private w) dma_buf
  = (- ENOENT, None)
  /\ prime_head (drm_prime_destroy_file_private w) = []
  /\ slab (drm_prime_destroy_file_private w)
     = slab w - Z.of_nat (length (prime_head w)).
Proof.
  destruct (teardown_empty w) as [Hhead Hslab].
  unfold drm_prime_lookup_fd_handle_mapping. by rewrite Hhead, Hslab.
Qed.

(** C9. When the allocation of the node fails,
    [drm_prime_insert_fd_handle_mapping] returns -ENOMEM and leaves the
    registry, and everything else, exactly as it was. *)
Theorem insert_enomem_unchanged (e : env) (dma_buf handle : Z) (w : world) :
  env_kmalloc e = false ->
  drm_prime_insert_fd_handle_mapping e dma_buf handle w = (- ENOMEM, w).
Proof.
  intros H. unfold drm_prime_insert_fd_handle_mapping, kmalloc.
  by rewrite H.
Qed.

Lemma insert_enomem_unchanged_witness :
  env_kmalloc (Example.answers false) = false
  /\ drm_prime_insert_fd_handle_mapping (Example.answers false) Example.buf 1
       Example.registered
     = (- ENOMEM, Example.registered).
Proof.
  split; [reflexivity|].
  apply (insert_enomem_unchanged (Example.answers false) Example.buf 1
           Example.registered).
  reflexivity.
Defined.

(** ** Import, path by path *)

Ltac unfold_import :=
  unfold drm_prime_fd_to_handle_ioctl, drm_prime_lookup_fd_handle_mapping,
    drm_prime_insert_fd_handle_mapping, drm_gem_handle_create, dma_buf_get,
    kmalloc.

(** Follow the C function down the path the equations [tac] rewrites with
    select. *)
Ltac walk_with tac := unfold_import; repeat (progress (simpl; tac)).

Section ImportPaths.

Variables (dev : drm_device) (e : env) (args : drm_prime_handle) (w : world).
Variables (import : Z -> Z) (dma_buf : Z).

(** The driver can import, and the descriptor resolves to [dma_buf],
    which is a buffer and not an errno. *)
Hypothesis feature : drm_core_check_feature dev DRIVER_PRIME = true.
Hypothesis callback : prime_import dev = Some import.
Hypothesis resolves : env_dma_buf_get e (args_fd args) = dma_buf.
Hypothesis resolved : IS_ERR dma_buf = false.

(** The world once [dma_buf_get] has taken its reference. *)
Local Abbreviation w1 := (dma_buf_get e (args_fd args) w).2.

Local Ltac walk H :=
  walk_with ltac:(rewrite ?feature, ?callback, ?resolves, ?resolved, ?H);
  try done.

Lemma import_hit (handle : Z) :
  lookup_members (prime_head w) dma_buf = (0, Some handle) ->
  drm_prime_fd_to_handle_ioctl dev e args w
  = (0, set_args_handle handle args, dma_buf_put dma_buf w1).
Proof using feature callback resolves resolved.
  intros Hhit. walk Hhit.
Qed.

(** The registry does not know [dma_buf]; the driver's answer is [obj]. *)
Variable obj : Z.
Hypothesis miss : lookup_members (prime_head w) dma_buf = (- ENOENT, None).
Hypothesis imports : import dma_buf = obj.

(** The world once the driver's import callback has returned, and once
    the handle table has answered and the reference the driver returned has
    been dropped. *)
Local Abbreviation w2 := (invoke_prime_import import dma_buf w1).2.
Local Abbreviation w3 :=
  (drm_gem_object_unreference_unlocked obj
     (drm_gem_handle_create e obj w2).2).

(** Step 3 fails: the driver returns an errno or NULL. *)
Lemma import_fail_driver :
  IS_ERR_OR_NULL obj = true ->
  drm_prime_fd_to_handle_ioctl dev e args w
  = (PTR_ERR obj, args, dma_buf_put dma_buf w2).
Proof using feature callback resolves resolved imports miss.
  intros Hobj. walk miss. walk imports. walk Hobj.
Qed.

(** Step 4 fails: no handle. *)
Lemma import_fail_handle (ret handle : Z) :
  IS_ERR_OR_NULL obj = false ->
  env_gem_handle_create e obj = (ret, handle) -> ret <> 0 ->
  drm_prime_fd_to_handle_ioctl dev e args w
  = (ret, args, dma_buf_put dma_buf w3).
Proof using feature callback resolves resolved imports miss.
  intros Hobj Hcreate Hret. apply Z.eqb_neq in Hret.
  walk miss. walk imports. walk Hobj. walk Hcreate. walk Hret.
Qed.

(** Step 5 fails: no memory for the registry node. *)
Lemma import_fail_insert (handle : Z) :
  IS_ERR_OR_NULL obj = false ->
  env_gem_handle_create e obj = (0, handle) -> env_kmalloc e = false ->
  drm_prime_fd_to_handle_ioctl dev e args w
  = (- ENOMEM, args,
     dma_buf_put dma_buf (drm_gem_object_handle_unreference_unlocked obj w3)).
Proof using feature callback resolves resolved imports miss.
  intros Hobj Hcreate Hmem.
  walk miss. walk imports. walk Hobj. walk Hcreate. walk Hmem.
Qed.

(** Every step succeeds: the new handle is registered and returned. *)
Lemma import_new (handle : Z) :
  IS_ERR_OR_NULL obj = false ->
  env_gem_handle_create e obj = (0, handle) -> env_kmalloc e = true ->
  drm_prime_fd_to_handle_ioctl dev e args w
  = (0, set_args_handle handle args,
     set_prime_head (Member dma_buf handle :: prime_head w)
       (set_slab (slab w + 1) w3)).
Proof using feature callback resolves resolved imports miss.
  intros Hobj Hcreate Hmem.
  walk miss. walk imports. walk Hobj. walk Hcreate. walk Hmem.
Qed.

End ImportPaths.

(** C10. An Import whose descriptor resolves to an identity the registry
    already holds leaves the registry as it is (the same nodes in the same
    order, none allocated or freed) and calls neither the driver's import
    callback nor the creation of a handle. *)
Theorem import_hit_frame (dev : drm_device) (e : env)
    (args : drm_prime_handle) (w : world) :
  (drm_prime_lookup_fd_handle_mapping w (env_dma_buf_get e (args_fd args))).1
  = 0 ->
  let w' := (drm_prime_fd_to_handle_ioctl dev e args w).2 in
  prime_head w' = prime_head w
  /\ slab w' = slab w
  /\ count_calls is_prime_import (calls w')
     = count_calls is_prime_import (calls w)
  /\ count_calls is_gem_handle_create (calls w')
     = count_calls is_gem_handle_create (calls w).
Proof.
  unfold drm_prime_lookup_fd_handle_mapping. intros Hhit. cbv zeta.
  destruct (proj1 (lookup_members_ret _ _) Hhit) as [handle Hsome].
  assert (Hlook : lookup_members (prime_head w)
                    (env_dma_buf_get e (args_fd args)) = (0, Some handle)).
  { destruct (lookup_members _ _) as [ret found]. simpl in *. congruence. }
  destruct (drm_core_check_feature dev DRIVER_PRIME) eqn:Hfeature;
    [|unfold drm_prime_fd_to_handle_ioctl; by rewrite Hfeature].
  destruct (prime_import dev) as [import|] eqn:Hcallback;
    [|unfold drm_prime_fd_to_handle_ioctl; by rewrite Hfeature, Hcallback].
  destruct (IS_ERR (env_dma_buf_get e (args_fd args))) eqn:Hresolved.
  - walk_with ltac:(rewrite ?Hfeature, ?Hcallback, ?Hresolved).
    rewrite !count_calls_app. simpl. repeat split; lia.
  - rewrite (import_hit dev e args w import _ Hfeature Hcallback eq_refl
               Hresolved handle Hlook).
    unfold dma_buf_get. rewrite Hresolved. simpl.
    rewrite !count_calls_app. simpl. repeat split; lia.
Qed.

Lemma import_hit_frame_witness :
  (drm_prime_lookup_fd_handle_mapping Example.registered
     (env_dma_buf_get (Example.answers false) (args_fd Example.import_args))).1
  = 0
  /\ prime_head
       (drm_prime_fd_to_handle_ioctl Example.driver (Example.answers false)
          Example.import_args Example.registered).2
     = prime_head Example.registered.
Proof.
  split; [reflexivity|].
  apply (import_hit_frame Example.driver (Example.answers false)
           Example.import_args Example.registered).
  reflexivity.
Defined.

Ltac unfold_collaborators :=
  unfold dma_buf_put, drm_gem_object_handle_unreference_unlocked,
    drm_gem_object_unreference_unlocked, drm_gem_handle_create,
    invoke_prime_import, invoke_prime_export, dma_buf_fd, dma_buf_get.

(** C5. A failure of the driver's import (step 3), of the creation of the
    handle (step 4) or of the registry insert (step 5) leaves the registry
    as it was, so with no node for the identity the lookup had missed, and
    leaves the reference count of the buffer (of every buffer) at its value
    from before the call; the reference taken on the descriptor is the last
    thing released, after whatever the later steps had acquired. *)
Theorem import_rollback (s : import_step) (dev : drm_device) (e : env)
    (args : drm_prime_handle) (w : world) (import : Z -> Z)
    (dma_buf obj : Z) :
  drm_core_check_feature dev DRIVER_PRIME = true ->
  prime_import dev = Some import ->
  env_dma_buf_get e (args_fd args) = dma_buf ->
  IS_ERR dma_buf = false ->
  drm_prime_lookup_fd_handle_mapping w dma_buf = (- ENOENT, None) ->
  import dma_buf = obj ->
  fails_at s e obj ->
  let w' := (drm_prime_fd_to_handle_ioctl dev e args w).2 in
  count_members dma_buf (prime_head w') = 0%nat
  /\ prime_head w' = prime_head w
  /\ dma_buf_refcount w' dma_buf = dma_buf_refcount w dma_buf
  /\ dma_bufs w' = dma_bufs w
  /\ slab w' = slab w
  /\ calls w'
     = calls w ++ [call_dma_buf_get (args_fd args)]
       ++ rollback_calls s dma_buf obj ++ [call_dma_buf_put dma_buf].
Proof.
  intros Hfeature Hcallback Hresolves Hresolved Hmiss Himports Hfails.
  cbv zeta. unfold dma_buf_refcount.
  pose proof (proj2 (lookup_members_miss (prime_head w) dma_buf) Hmiss)
    as Hcount.
  destruct s; simpl in Hfails.
  - rewrite (import_fail_driver dev e args w import dma_buf Hfeature Hcallback
               Hresolves Hresolved obj Hmiss Himports Hfails).
    unfold_collaborators. rewrite Hresolves, Hresolved. simpl.
    by rewrite alter_incr_decr, <- !app_assoc, Hcount.
  - destruct Hfails as [Hobj Hret].
    destruct (env_gem_handle_create e obj) as [ret handle] eqn:Hcreate.
    simpl in Hret.
    rewrite (import_fail_handle dev e args w import dma_buf Hfeature Hcallback
               Hresolves Hresolved obj Hmiss Himports ret handle Hobj Hcreate
               Hret).
    unfold_collaborators. rewrite Hresolves, Hresolved, Hcreate.
    apply Z.eqb_neq in Hret. rewrite Hret. simpl.
    by rewrite alter_incr_decr, <- !app_assoc, Hcount.
  - destruct Hfails as (Hobj & Hret & Hmem).
    destruct (env_gem_handle_create e obj) as [ret handle] eqn:Hcreate.
    simpl in Hret. subst ret.
    rewrite (import_fail_insert dev e args w import dma_buf Hfeature Hcallback
               Hresolves Hresolved obj Hmiss Himports handle Hobj Hcreate
               Hmem).
    unfold_collaborators. rewrite Hresolves, Hresolved, Hcreate. simpl.
    by rewrite alter_incr_decr, <- !app_assoc, Hcount.
Qed.

Lemma import_rollback_witness :
  fails_at step_registry_insert (Example.answers false) Example.imported
  /\ dma_bufs
       (drm_prime_fd_to_handle_ioctl Example.driver (Example.answers false)
          Example.import_args Example.session).2
     = dma_bufs Example.session.
Proof.
  assert (Hfails : fails_at step_registry_insert (Example.answers false)
                     Example.imported) by (repeat split).
  split; [exact Hfails|].
  apply (import_rollback step_registry_insert Example.driver
           (Example.answers false) Example.import_args Example.session
           (λ _, Example.imported) Example.buf Example.imported
           eq_refl eq_refl eq_refl eq_refl eq_refl eq_refl Hfails).
Defined.

(** ** The registry under sequences of operations *)

(** Import either leaves the registry list as it is, or links one node for
    an identity the list did not hold. *)
Lemma import_prime_head (dev : drm_device) (e : env)
    (args : drm_prime_handle) (w : world) :
  let dma_buf := env_dma_buf_get e (args_fd args) in
  let w' := (drm_prime_fd_to_handle_ioctl dev e args w).2 in
  prime_head w' = prime_head w
  \/ (count_members dma_buf (prime_head w) = 0%nat
      /\ exists handle, prime_head w' = Member dma_buf handle :: prime_head w).
Proof.
  cbv zeta.
  destruct (drm_core_check_feature dev DRIVER_PRIME) eqn:Hfeature;
    [|left; unfold drm_prime_fd_to_handle_ioctl; by rewrite Hfeature].
  destruct (prime_import dev) as [import|] eqn:Hcallback;
    [|left; unfold drm_prime_fd_to_handle_ioctl;
      by rewrite Hfeature, Hcallback].
  destruct (IS_ERR (env_dma_buf_get e (args_fd args))) eqn:Hresolved.
  { left. by walk_with ltac:(rewrite ?Hfeature, ?Hcallback, ?Hresolved). }
  destruct (lookup_members_cases (prime_head w)
              (env_dma_buf_get e (args_fd args))) as [Hmiss|[handle Hhit]].
  2:{ left.
      rewrite (import_hit dev e args w import _ Hfeature Hcallback eq_refl
                 Hresolved handle Hhit).
      unfold_collaborators. by rewrite Hresolved. }
  pose proof (proj2 (lookup_members_miss _ _) Hmiss) as Hcount.
  destruct (IS_ERR_OR_NULL (import (env_dma_buf_get e (args_fd args))))
    eqn:Hobj.
  { left.
    rewrite (import_fail_driver dev e args w import _ Hfeature Hcallback
               eq_refl Hresolved _ Hmiss eq_refl Hobj).
    unfold_collaborators. by rewrite Hresolved. }
  destruct (env_gem_handle_create e
              (import (env_dma_buf_get e (args_fd args))))
    as [ret handle] eqn:Hcreate.
  destruct (decide (ret = 0)) as [->|Hret].
  2:{ left.
      rewrite (import_fail_handle dev e args w import _ Hfeature Hcallback
                 eq_refl Hresolved _ Hmiss eq_refl ret handle Hobj Hcreate
                 Hret).
      unfold_collaborators. rewrite Hresolved, Hcreate.
      apply Z.eqb_neq in Hret. by rewrite Hret. }
  destruct (env_kmalloc e) eqn:Hmem.
  - right. split; [exact Hcount|]. exists handle.
    by rewrite (import_new dev e args w import _ Hfeature Hcallback eq_refl
                  Hresolved _ Hmiss eq_refl handle Hobj Hcreate Hmem).
  - left.
    rewrite (import_fail_insert dev e args w import _ Hfeature Hcallback
               eq_refl Hresolved _ Hmiss eq_refl handle Hobj Hcreate Hmem).
    unfold_collaborators. by rewrite Hresolved, Hcreate.
Qed.

Lemma remove_members_count (head : list drm_prime_member) (dma_buf b : Z) :
  (count_members b (remove_members head dma_buf).1
   <= count_members b head)%nat.
Proof.
  induction head as [|member rest IH]; simpl; [lia|].
  destruct (remove_members rest dma_buf) as [kept freed]. simpl in *.
  destruct (member_dma_buf member =? dma_buf); simpl;
    destruct (member_dma_buf member =? b); lia.
Qed.

Lemma remove_members_gone (head : list drm_prime_member) (dma_buf : Z) :
  count_members dma_buf (remove_members head dma_buf).1 = 0%nat.
Proof.
  induction head as [|member rest IH]; simpl; [done|].
  destruct (remove_members rest dma_buf) as [kept freed]. simpl in *.
  destruct (member_dma_buf member =? dma_buf) eqn:E; simpl; [done|].
  by rewrite E.
Qed.

(** One operation keeps "at most one node per identity". *)
Lemma step_at_most_one (w : world) (o : op) :
  (forall b, (count_members b (prime_head w) <= 1)%nat) ->
  forall b, (count_members b (prime_head (step w o)) <= 1)%nat.
Proof.
  intros Hinv b. destruct o as [dev e args|dma_buf|]; simpl.
  - destruct (import_prime_head dev e args w) as [->|[Hcount [handle ->]]];
      [apply Hinv|].
    simpl. destruct (env_dma_buf_get e (args_fd args) =? b) eqn:E.
    + apply Z.eqb_eq in E. subst b. rewrite Hcount. lia.
    + apply Hinv.
  - unfold drm_prime_remove_fd_handle_mapping.
    pose proof (remove_members_count (prime_head w) dma_buf b) as Hle.
    destruct (remove_members (prime_head w) dma_buf) as [kept freed].
    simpl in *. specialize (Hinv b). lia.
  - destruct (teardown_empty w) as [-> _]. simpl. lia.
Qed.

Lemma run_at_most_one (ops : list op) (w : world) :
  (forall b, (count_members b (prime_head w) <= 1)%nat) ->
  forall b, (count_members b (prime_head (run ops w)) <= 1)%nat.
Proof.
  revert w. induction ops as [|o ops IH]; intros w Hinv; simpl; [done|].
  apply IH. by apply step_at_most_one.
Qed.

(** C8. Starting from a session whose registry is empty, after every
    prefix of every sequence of Import, remove and teardown operations the
    registry holds at most one node per identity, identities being compared
    as the dma_buf pointers they are. *)
Theorem registry_at_most_one (ops : list op) (w : world) (n : nat) (b : Z) :
  prime_head w = [] ->
  (count_members b (prime_head (run (take n ops) w)) <= 1)%nat.
Proof.
  intros Hempty. apply run_at_most_one. intros b'. rewrite Hempty. simpl. lia.
Qed.

Lemma registry_at_most_one_witness :
  prime_head Example.session = []
  /\ (count_members Example.buf
        (prime_head (run (take 5 Example.ops) Example.session)) <= 1)%nat.
Proof.
  split; [reflexivity|].
  apply (registry_at_most_one Example.ops Example.session 5 Example.buf).
  reflexivity.
Defined.

(** ** Import twice *)

(** C1, as the code has it.  When the registry does not yet hold the
    identity and the first Import goes through (the driver's import, the
    creation of the handle and the registry insert succeed), a second
    Import of a descriptor that resolves to the same dma_buf returns the
    same handle; the driver's import callback is called once, by the first
    call, and the second call only resolves its descriptor and releases the
    reference that took. *)
Theorem import_dedup (dev : drm_device) (e1 e2 : env)
    (args1 args2 : drm_prime_handle) (w : world) (import : Z -> Z)
    (dma_buf obj handle : Z) :
  drm_core_check_feature dev DRIVER_PRIME = true ->
  prime_import dev = Some import ->
  env_dma_buf_get e1 (args_fd args1) = dma_buf ->
  env_dma_buf_get e2 (args_fd args2) = dma_buf ->
  IS_ERR dma_buf = false ->
  drm_prime_lookup_fd_handle_mapping w dma_buf = (- ENOENT, None) ->
  import dma_buf = obj ->
  IS_ERR_OR_NULL obj = false ->
  env_gem_handle_create e1 obj = (0, handle) ->
  env_kmalloc e1 = true ->
  let '(ret1, out1, w1) := drm_prime_fd_to_handle_ioctl dev e1 args1 w in
  let '(ret2, out2, w2) := drm_prime_fd_to_handle_ioctl dev e2 args2 w1 in
  (ret1 = 0 /\ args_handle out1 = handle)
  /\ (ret2 = 0 /\ args_handle out2 = handle)
  /\ count_calls is_prime_import (calls w1)
     = S (count_calls is_prime_import (calls w))
  /\ count_calls is_prime_import (calls w2)
     = count_calls is_prime_import (calls w1)
  /\ calls w2
     = calls w1 ++ [call_dma_buf_get (args_fd args2); call_dma_buf_put dma_buf]
  /\ dma_bufs w2 = dma_bufs w1
  /\ prime_head w2 = prime_head w1.
Proof.
  intros Hfeature Hcallback Hresolves1 Hresolves2 Hresolved Hmiss Himports
    Hobj Hcreate Hmem.
  rewrite (import_new dev e1 args1 w import dma_buf Hfeature Hcallback
             Hresolves1 Hresolved obj Hmiss Himports handle Hobj Hcreate Hmem).
  match goal with |- context [drm_prime_fd_to_handle_ioctl dev e2 args2 ?w] =>
    set (w1 := w) end.
  assert (Hhit : lookup_members (prime_head w1) dma_buf = (0, Some handle)).
  { subst w1. simpl. by rewrite Z.eqb_refl. }
  rewrite (import_hit dev e2 args2 w1 import dma_buf Hfeature Hcallback
             Hresolves2 Hresolved handle Hhit).
  repeat split.
  - subst w1. unfold_collaborators. rewrite Hresolves1, Hresolved, Hcreate.
    simpl. rewrite !count_calls_app. simpl. lia.
  - unfold_collaborators. rewrite Hresolves2, Hresolved. simpl.
    rewrite !count_calls_app. simpl. lia.
  - unfold_collaborators. rewrite Hresolves2, Hresolved. simpl.
    by rewrite <- app_assoc.
  - unfold_collaborators. rewrite Hresolves2, Hresolved. simpl.
    apply alter_incr_decr.
  - unfold_collaborators. by rewrite Hresolves2, Hresolved.
Qed.

Lemma import_dedup_witness :
  let '(ret1, out1, w1) :=
    drm_prime_fd_to_handle_ioctl Example.driver (Example.answers true)
      Example.import_args Example.session in
  let '(ret2, out2, w2) :=
    drm_prime_fd_to_handle_ioctl Example.driver (Example.answers false)
      Example.import_args w1 in
  (ret1 = 0 /\ args_handle out1 = 1) /\ (ret2 = 0 /\ args_handle out2 = 1).
Proof.
  pose proof (import_dedup Example.driver (Example.answers true)
                (Example.answers false) Example.import_args
                Example.import_args Example.session (λ _, Example.imported)
                Example.buf Example.imported 1
                eq_refl eq_refl eq_refl eq_refl eq_refl eq_refl eq_refl
                eq_refl eq_refl eq_refl) as H.
  destruct (drm_prime_fd_to_handle_ioctl Example.driver (Example.answers true)
              Example.import_args Example.session) as [[ret1 out1] w1].
  destruct (drm_prime_fd_to_handle_ioctl Example.driver
              (Example.answers false) Example.import_args w1)
    as [[ret2 out2] w2].
  destruct H as (H1 & H2 & _). by split.
Defined.

(** C1 as stated fails: the first Import finds no memory for the registry
    node and returns -ENOMEM having stored no handle; the second Import of
    the same descriptor calls the driver's import callback again and
    returns handle 1.  Two calls of the callback, and not the same result
    twice. *)
Lemma import_twice_after_failed_insert :
  let '(ret1, out1, w1) :=
    drm_prime_fd_to_handle_ioctl Example.driver (Example.answers false)
      Example.import_args Example.session in
  let '(ret2, out2, w2) :=
    drm_prime_fd_to_handle_ioctl Example.driver (Example.answers true)
      Example.import_args w1 in
  env_dma_buf_get (Example.answers false) (args_fd Example.import_args)
  = env_dma_buf_get (Example.answers true) (args_fd Example.import_args)
  /\ ret1 = - ENOMEM /\ args_handle out1 = 0
  /\ ret2 = 0 /\ args_handle out2 = 1
  /\ count_calls is_prime_import (calls w2) = 2%nat
  /\ ~ ((ret1, args_handle out1) = (ret2, args_handle out2)
        /\ count_calls is_prime_import (calls w2) = 1%nat).
Proof.
  vm_compute. repeat split. intros [H _]. discriminate H.
Qed.

(** ** Import when the driver fails *)

(** When the driver's import callback returns an errno pointer, Import
    releases the reference it took on the buffer and returns that errno,
    which is negative. *)
Lemma import_driver_errno (dev : drm_device) (e : env)
    (args : drm_prime_handle) (w : world) (import : Z -> Z)
    (dma_buf obj : Z) :
  drm_core_check_feature dev DRIVER_PRIME = true ->
  prime_import dev = Some import ->
  env_dma_buf_get e (args_fd args) = dma_buf ->
  IS_ERR dma_buf = false ->
  drm_prime_lookup_fd_handle_mapping w dma_buf = (- ENOENT, None) ->
  import dma_buf = obj ->
  is_ptr obj -> IS_ERR obj = true ->
  let '(ret, out, w') := drm_prime_fd_to_handle_ioctl dev e args w in
  ret = PTR_ERR obj /\ - MAX_ERRNO <= ret < 0 /\ out = args
  /\ dma_bufs w' = dma_bufs w.
Proof.
  intros Hfeature Hcallback Hresolves Hresolved Hmiss Himports Hptr Herr.
  assert (Hobj : IS_ERR_OR_NULL obj = true).
  { unfold IS_ERR_OR_NULL. unfold IS_ERR in Herr. rewrite Herr.
    apply orb_true_r. }
  rewrite (import_fail_driver dev e args w import dma_buf Hfeature Hcallback
             Hresolves Hresolved obj Hmiss Himports Hobj).
  repeat split; try apply (PTR_ERR_IS_ERR obj Hptr Herr).
  unfold_collaborators. rewrite Hresolves, Hresolved. simpl.
  apply alter_incr_decr.
Qed.

(** C3 fails when the driver's import callback returns NULL.  Import
    takes the failure path and releases the reference it took, but the
    value it returns is [PTR_ERR(NULL)], which is 0: the caller is told the
    import succeeded, and no handle was stored in [args]. *)
Theorem import_null_object_returns_success :
  let '(ret, out, w') :=
    drm_prime_fd_to_handle_ioctl Example.null_driver (Example.answers true)
      Example.import_args Example.session in
  IS_ERR_OR_NULL NULL = true
  /\ ret = 0
  /\ out = Example.import_args
  /\ prime_head w' = []
  /\ dma_buf_refcount w' Example.buf
     = dma_buf_refcount Example.session Example.buf
  /\ calls w'
     = [call_dma_buf_get 5; call_prime_import Example.buf;
        call_dma_buf_put Example.buf].
Proof. vm_compute. repeat split. Qed.

(** ** Export, path by path *)

Section ExportPaths.

Variables (dev : drm_device) (e : env) (args : drm_prime_handle) (w : world).
Variables (export : Z -> Z -> Z) (obj : Z) (o : drm_gem_object).

(** The driver can export, and the handle names the live object [o] at
    address [obj]. *)
Hypothesis feature : drm_core_check_feature dev DRIVER_PRIME = true.
Hypothesis callback : prime_export dev = Some export.
Hypothesis named : object_idr w !! args_handle args = Some obj.
Hypothesis not_null : obj <> NULL.
Hypothesis alive : gem_objects w !! obj = Some o.

(** The world once [drm_gem_object_lookup] has taken its reference. *)
Local Abbreviation w1 := (drm_gem_object_lookup (args_handle args) w).2.

Local Ltac walk H :=
  unfold drm_prime_handle_to_fd_ioctl, drm_gem_object_lookup,
    invoke_prime_export, drm_gem_object_unreference_unlocked;
  repeat (progress (simpl;
                    rewrite ?feature, ?callback, ?named, ?lookup_alter_eq,
                      ?lookup_insert_eq, ?alive, ?H));
  try done;
  try (unfold dma_buf_fd; by destruct (_ <? 0)).

(** The wrapper is cached: the callback is not called. *)
Lemma export_cached :
  export_dma_buf o <> NULL ->
  drm_prime_handle_to_fd_ioctl dev e args w
  = Some (0, set_args_fd (env_dma_buf_fd e (export_dma_buf o)) args,
          (dma_buf_fd e (export_dma_buf o) w1).2).
Proof using feature callback named not_null alive.
  intros Hcached. apply Z.eqb_neq in Hcached, not_null.
  walk not_null. walk Hcached.
Qed.

Hypothesis uncached : export_dma_buf o = NULL.

(** The world once the callback has returned [dma_buf] and that has been
    stored in the object. *)
Local Abbreviation w2 dma_buf :=
  (set_gem_objects
     (<[obj := set_export_dma_buf dma_buf (add_refcount 1 o)]>
        (gem_objects w1))
     (log (call_prime_export obj (args_flags args)) w1)).

(** The callback fails: the reference is dropped and [PTR_ERR] of its
    answer returned. *)
Lemma export_fail (dma_buf : Z) :
  export obj (args_flags args) = dma_buf ->
  IS_ERR_OR_NULL dma_buf = true ->
  drm_prime_handle_to_fd_ioctl dev e args w
  = Some (PTR_ERR dma_buf, args,
          drm_gem_object_unreference_unlocked obj (w2 dma_buf)).
Proof using feature callback named not_null alive uncached.
  intros Hexports Hbuf. apply Z.eqb_neq in not_null.
  apply Z.eqb_eq in uncached.
  walk not_null. walk uncached. walk Hexports. walk Hbuf.
Qed.

(** The callback gives a wrapper: it is cached and bound to a
    descriptor. *)
Lemma export_new (dma_buf : Z) :
  export obj (args_flags args) = dma_buf ->
  IS_ERR_OR_NULL dma_buf = false ->
  drm_prime_handle_to_fd_ioctl dev e args w
  = Some (0, set_args_fd (env_dma_buf_fd e dma_buf) args,
          (dma_buf_fd e dma_buf (w2 dma_buf)).2).
Proof using feature callback named not_null alive uncached.
  intros Hexports Hbuf. apply Z.eqb_neq in not_null.
  apply Z.eqb_eq in uncached.
  walk not_null. walk uncached. walk Hexports. walk Hbuf.
Qed.

End ExportPaths.

(** ** Export, again and again *)

(** Once a wrapper is cached on the object, any number of exports of the
    handle return descriptors of that wrapper and never call the driver. *)
Lemma export_calls_cached (dev : drm_device) (export : Z -> Z -> Z)
    (handle obj dma_buf : Z) (cs : list (env * drm_prime_handle)) :
  drm_core_check_feature dev DRIVER_PRIME = true ->
  prime_export dev = Some export ->
  obj <> NULL -> dma_buf <> NULL ->
  Forall (λ c, args_handle c.2 = handle) cs ->
  forall (w : world) (o : drm_gem_object),
    object_idr w !! handle = Some obj ->
    gem_objects w !! obj = Some o ->
    export_dma_buf o = dma_buf ->
    exists (w' : world) (o' : drm_gem_object),
      export_calls dev cs w
      = Some (map (λ c, (0, set_args_fd (env_dma_buf_fd c.1 dma_buf) c.2)) cs,
              w')
      /\ count_calls is_prime_export (calls w')
         = count_calls is_prime_export (calls w)
      /\ gem_objects w' !! obj = Some o'
      /\ export_dma_buf o' = dma_buf.
Proof.
  intros Hfeature Hcallback Hobj Hbuf Hcs.
  induction Hcs as [|[e args] cs Hhandle Hcs IH]; intros w o Hnamed Halive Ho.
  { exists w, o. by simpl. }
  simpl in Hhandle. subst handle. simpl.
  rewrite (export_cached dev e args w export obj o Hfeature Hcallback Hnamed
             Hobj Halive) by congruence.
  rewrite Ho. simpl.
  set (w1 := (dma_buf_fd e dma_buf
                (drm_gem_object_lookup (args_handle args) w).2).2).
  assert (Hw1 : object_idr w1 !! args_handle args = Some obj
                /\ gem_objects w1 !! obj = Some (add_refcount 1 o)
                /\ count_calls is_prime_export (calls w1)
                   = count_calls is_prime_export (calls w)).
  { subst w1. unfold dma_buf_fd, drm_gem_object_lookup. simpl.
    rewrite Hnamed. destruct (_ <? 0); simpl;
      rewrite lookup_alter_eq, Halive, !count_calls_app; simpl;
      repeat split; try done; lia. }
  destruct Hw1 as (Hnamed1 & Halive1 & Hcount1).
  destruct (IH w1 (add_refcount 1 o) Hnamed1 Halive1 Ho)
    as (w' & o' & -> & Hcount & Halive' & Ho').
  exists w', o'. simpl. repeat split; try done. congruence.
Qed.

(** C2, as the code has it.  For an object with no cached wrapper whose
    driver answers the first export with a wrapper (neither NULL nor an
    errno), any number (>= 1) of exports of its handle call the driver's
    export callback once: every export succeeds with a descriptor of that
    one wrapper (the flags of the later calls are not looked at), and the
    wrapper stays cached on the object. *)
Theorem export_wraps_once (dev : drm_device) (export : Z -> Z -> Z)
    (handle obj dma_buf : Z) (e : env) (args : drm_prime_handle)
    (cs : list (env * drm_prime_handle)) (w : world) (o : drm_gem_object) :
  drm_core_check_feature dev DRIVER_PRIME = true ->
  prime_export dev = Some export ->
  object_idr w !! handle = Some obj ->
  obj <> NULL ->
  gem_objects w !! obj = Some o ->
  export_dma_buf o = NULL ->
  args_handle args = handle ->
  Forall (λ c, args_handle c.2 = handle) cs ->
  export obj (args_flags args) = dma_buf ->
  IS_ERR_OR_NULL dma_buf = false ->
  exists w' : world,
    export_calls dev ((e, args) :: cs) w
    = Some (map (λ c, (0, set_args_fd (env_dma_buf_fd c.1 dma_buf) c.2))
              ((e, args) :: cs), w')
    /\ count_calls is_prime_export (calls w')
       = S (count_calls is_prime_export (calls w))
    /\ export_dma_buf <$> gem_objects w' !! obj = Some dma_buf.
Proof.
  intros Hfeature Hcallback Hnamed Hobj Halive Hnone Hhandle Hcs Hexports
    Hbuf. subst handle.
  assert (Hnonnull : dma_buf <> NULL).
  { intros ->. by rewrite IS_ERR_OR_NULL_NULL in Hbuf. }
  simpl.
  rewrite (export_new dev e args w export obj o Hfeature Hcallback Hnamed
             Hobj Halive Hnone dma_buf Hexports Hbuf). simpl.
  match goal with |- context [export_calls dev cs ?w0] => set (w1 := w0) end.
  assert (Hw1 : object_idr w1 !! args_handle args = Some obj
                /\ gem_objects w1 !! obj
                   = Some (set_export_dma_buf dma_buf (add_refcount 1 o))
                /\ count_calls is_prime_export (calls w1)
                   = S (count_calls is_prime_export (calls w))).
  { subst w1. unfold dma_buf_fd, drm_gem_object_lookup. simpl.
    rewrite Hnamed. destruct (_ <? 0); simpl;
      rewrite lookup_insert_eq, !count_calls_app; simpl;
      repeat split; try done; lia. }
  destruct Hw1 as (Hnamed1 & Halive1 & Hcount1).
  destruct (export_calls_cached dev export (args_handle args) obj dma_buf cs
              Hfeature Hcallback Hobj Hnonnull Hcs w1 _ Hnamed1 Halive1
              eq_refl)
    as (w' & o' & -> & Hcount & Halive' & Ho').
  exists w'. simpl. repeat split; [congruence|]. by rewrite Halive', <- Ho'.
Qed.

Lemma export_wraps_once_witness :
  exists w' : world,
    export_calls Example.driver
      [(Example.answers true, Example.export_args);
       (Example.answers true, Example.export_args);
       (Example.answers false, Example.export_args)] Example.session
    = Some ([(0, set_args_fd 3 Example.export_args);
             (0, set_args_fd 3 Example.export_args);
             (0, set_args_fd 3 Example.export_args)], w')
    /\ count_calls is_prime_export (calls w') = 1%nat
    /\ export_dma_buf <$> gem_objects w' !! Example.obj = Some Example.buf.
Proof.
  apply (export_wraps_once Example.driver (λ _ _, Example.buf) 7 Example.obj
           Example.buf (Example.answers true) Example.export_args
           [(Example.answers true, Example.export_args);
            (Example.answers false, Example.export_args)]
           Example.session
           {| refcount := 1; handle_count := 1; export_dma_buf := NULL;
              import_attach := NULL |}).
  - reflexivity.
  - reflexivity.
  - reflexivity.
  - discriminate.
  - reflexivity.
  - reflexivity.
  - reflexivity.
  - repeat constructor.
  - reflexivity.
  - reflexivity.
Defined.

(** C2 as stated fails: a driver whose export callback returns NULL
    leaves nothing cached on the object, so the second export of the same
    handle with the same flags calls the callback a second time. *)
Lemma export_twice_null_wrapper :
  match
    export_calls Example.null_driver
      [(Example.answers true, Example.export_args);
       (Example.answers true, Example.export_args)] Example.session
  with
  | Some (rs, w') =>
      count_calls is_prime_export (calls w') = 2%nat
      /\ count_calls is_prime_export (calls w') <> 1%nat
      /\ export_dma_buf <$> gem_objects w' !! Example.obj = Some NULL
  | None => False
  end.
Proof. vm_compute. repeat split. discriminate. Qed.

(** ** Export when the driver fails *)

(** When the driver's export callback returns an errno pointer, Export
    drops the reference the lookup took and returns that errno, which is
    negative. *)
Lemma export_driver_errno (dev : drm_device) (e : env)
    (args : drm_prime_handle) (w : world) (export : Z -> Z -> Z)
    (obj dma_buf : Z) (o : drm_gem_object) :
  drm_core_check_feature dev DRIVER_PRIME = true ->
  prime_export dev = Some export ->
  object_idr w !! args_handle args = Some obj ->
  obj <> NULL ->
  gem_objects w !! obj = Some o ->
  export_dma_buf o = NULL ->
  export obj (args_flags args) = dma_buf ->
  is_ptr dma_buf -> IS_ERR dma_buf = true ->
  exists w' : world,
    drm_prime_handle_to_fd_ioctl dev e args w
    = Some (PTR_ERR dma_buf, args, w')
    /\ - MAX_ERRNO <= PTR_ERR dma_buf < 0
    /\ refcount <$> gem_objects w' !! obj = Some (refcount o).
Proof.
  intros Hfeature Hcallback Hnamed Hobj Halive Hnone Hexports Hptr Herr.
  assert (Hbuf : IS_ERR_OR_NULL dma_buf = true).
  { unfold IS_ERR_OR_NULL. unfold IS_ERR in Herr. rewrite Herr.
    apply orb_true_r. }
  rewrite (export_fail dev e args w export obj o Hfeature Hcallback Hnamed
             Hobj Halive Hnone dma_buf Hexports Hbuf).
  eexists. split; [reflexivity|]. split; [by apply PTR_ERR_IS_ERR|].
  unfold drm_gem_object_unreference_unlocked, drm_gem_object_lookup. simpl.
  rewrite Hnamed. simpl. rewrite lookup_alter_eq, lookup_insert_eq. simpl.
  f_equal. lia.
Qed.

(** After an errno from the driver the error pointer is what stays in
    [obj->export_dma_buf]: the next export of the handle takes it for a
    cached wrapper, does not call the driver, and hands it to
    [dma_buf_fd]. *)
Lemma export_after_errno_takes_error_pointer :
  match
    export_calls Example.errno_driver
      [(Example.answers true, Example.export_args);
       (Example.answers true, Example.export_args)] Example.session
  with
  | Some (rs, w') =>
      rs.*1 = [- ENOMEM; 0]
      /\ calls w'
         = [call_gem_object_lookup 7; call_prime_export Example.obj 0;
            call_gem_object_unreference Example.obj;
            call_gem_object_lookup 7;
            call_dma_buf_fd (ERR_PTR (- ENOMEM))]
  | None => False
  end.
Proof. vm_compute. done. Qed.

(** C4 fails when the driver's export callback returns NULL.  Export
    takes the failure path and drops the reference on the object, but the
    value it returns is [PTR_ERR(NULL)], which is 0: the caller is told the
    export succeeded, and [args->fd] was never written. *)
Theorem export_null_wrapper_returns_success :
  match
    drm_prime_handle_to_fd_ioctl Example.null_driver (Example.answers true)
      Example.export_args Example.session
  with
  | Some (ret, out, w') =>
      IS_ERR_OR_NULL NULL = true
      /\ ret = 0
      /\ out = Example.export_args
      /\ gem_objects w' !! Example.obj
         = gem_objects Example.session !! Example.obj
      /\ calls w'
         = [call_gem_object_lookup 7; call_prime_export Example.obj 0;
            call_gem_object_unreference Example.obj]
  | None => False
  end.
Proof. vm_compute. repeat split. Qed.

(** ** The scatter table *)

(** The loop writes the segments of an all-zero table one after the
    other, each page into the segment of its index. *)
Lemma for_each_sg_set_page_app (pre : list scatterlist) (pages : list Z) :
  for_each_sg_set_page
    (pre ++ replicate (length pages) (Scatterlist 0 0 0)) pages (length pre)
  = pre ++ map (λ page, Scatterlist page 0 PAGE_SIZE) pages.
Proof.
  revert pre. induction pages as [|page pages IH]; intros pre; simpl; [done|].
  replace (length pre) with (length pre + 0)%nat at 1 by lia.
  rewrite alter_app_r. simpl.
  rewrite (cons_middle _ pre), app_assoc.
  replace (S (length pre))
    with (length (pre ++ [sg_set_page (Scatterlist 0 0 0) page PAGE_SIZE 0]))
    by (rewrite length_app; simpl; lia).
  rewrite IH. by rewrite <- app_assoc.
Qed.

Lemma set_slab_back (w : world) : set_slab (slab w + 1 - 1) w = w.
Proof. destruct w. unfold set_slab. simpl. f_equal. lia. Qed.

(** C6. For N >= 1 pages the builder either succeeds, and then the table
    has exactly N segments, the i-th covering the i-th page from offset 0
    for PAGE_SIZE bytes; or an allocation fails, and then it returns NULL
    with everything as before the call, the descriptor it had allocated
    being freed. *)
Theorem pages_to_sg_segments (a : sg_env) (pages : list Z) (w : world) :
  pages <> [] ->
  match drm_prime_pages_to_sg a pages w with
  | (Some sg, w') =>
      (env_kzalloc a = true /\ env_sg_alloc_table a = 0)
      /\ length (sgl sg) = length pages
      /\ sgl sg
         = map (λ page,
                  {| sg_page := page; sg_offset := 0; sg_length := PAGE_SIZE |})
             pages
      /\ nents sg = Z.of_nat (length pages)
  | (None, w') =>
      (env_kzalloc a = false \/ env_sg_alloc_table a <> 0) /\ w' = w
  end.
Proof.
  intros _. unfold drm_prime_pages_to_sg, kzalloc, sg_alloc_table.
  destruct (env_kzalloc a); simpl; [|by split; [left|]].
  destruct (env_sg_alloc_table a =? 0) eqn:Hret; simpl; rewrite Hret; simpl.
  - apply Z.eqb_eq in Hret.
    pose proof (for_each_sg_set_page_app [] pages) as Hloop.
    simpl in Hloop. rewrite Hloop, List.length_map. done.
  - apply Z.eqb_neq in Hret. split; [by right|]. unfold kfree. simpl.
    replace (set_slab (slab w + 1 - 1) (set_slab (slab w + 1) w))
      with (set_slab (slab w + 1 - 1) w) by done.
    apply set_slab_back.
Qed.

Lemma pages_to_sg_segments_witness :
  [11; 22; 33] <> []
  /\ (drm_prime_pages_to_sg (SgEnv true 0) [11; 22; 33] Example.session).1
     = Some {| sgl := [Scatterlist 11 0 PAGE_SIZE; Scatterlist 22 0 PAGE_SIZE;
                       Scatterlist 33 0 PAGE_SIZE];
               nents := 3; orig_nents := 3 |}.
Proof.
  assert (Hpages : [11; 22; 33] <> ([] : list Z)) by discriminate.
  split; [exact Hpages|].
  pose proof (pages_to_sg_segments (SgEnv true 0) [11; 22; 33]
                Example.session Hpages) as H.
  destruct (drm_prime_pages_to_sg (SgEnv true 0) [11; 22; 33]
              Example.session) as [[sg|] w'] eqn:E.
  - vm_compute in E. by inversion E.
  - vm_compute in E. discriminate E.
Defined.

(** * More properties of the code *)

(** ** The registry as a container *)

Lemma set_slab_prime_head_same (w : world) (n : Z) :
  n = slab w -> set_slab n (set_prime_head (prime_head w) w) = w.
Proof. intros ->. by destruct w. Qed.

Lemma lookup_members_first (head : list drm_prime_member) (dma_buf : Z) :
  match lookup_members head dma_buf with
  | (ret, Some handle) =>
      ret = 0
      /\ exists pre post,
           head = pre ++ Member dma_buf handle :: post
           /\ count_members dma_buf pre = 0%nat
  | (ret, None) => ret = - ENOENT /\ count_members dma_buf head = 0%nat
  end.
Proof.
  induction head as [|[b h] rest IH]; simpl; [done|].
  destruct (Z.eqb_spec b dma_buf) as [->|Hne].
  - split; [done|]. by exists [], rest.
  - destruct (lookup_members rest dma_buf) as [ret [handle|]]; [|done].
    destruct IH as (Hret & pre & post & -> & Hpre). split; [done|].
    exists (Member b h :: pre), post. split; [done|]. simpl.
    apply Z.eqb_neq in Hne. by rewrite Hne.
Qed.

(** X1. The lookup answers with the handle of the first node, from the
    list head, that carries the identity and returns 0; it returns -ENOENT
    and stores nothing exactly when no node carries it. *)
Theorem lookup_first_match (w : world) (dma_buf : Z) :
  match drm_prime_lookup_fd_handle_mapping w dma_buf with
  | (ret, Some handle) =>
      ret = 0
      /\ exists pre post,
           prime_head w = pre ++ Member dma_buf handle :: post
           /\ count_members dma_buf pre = 0%nat
  | (ret, None) =>
      ret = - ENOENT /\ count_members dma_buf (prime_head w) = 0%nat
  end.
Proof. apply lookup_members_first. Qed.

(** X2. An insert that finds memory returns 0 and links one node at the
    list head without looking for the identity in the list: the lookup of
    the identity then gives the handle just inserted, also when an older
    node carries the identity, and the lookup of every other identity is
    as before. *)
Theorem insert_then_lookup (e : env) (dma_buf handle : Z) (w : world) :
  env_kmalloc e = true ->
  let '(ret, w') := drm_prime_insert_fd_handle_mapping e dma_buf handle w in
  ret = 0
  /\ drm_prime_lookup_fd_handle_mapping w' dma_buf = (0, Some handle)
  /\ (forall b, b <> dma_buf ->
        drm_prime_lookup_fd_handle_mapping w' b
        = drm_prime_lookup_fd_handle_mapping w b)
  /\ count_members dma_buf (prime_head w')
     = S (count_members dma_buf (prime_head w))
  /\ slab w' = slab w + 1.
Proof.
  intros Hmem.
  unfold drm_prime_insert_fd_handle_mapping, kmalloc,
    drm_prime_lookup_fd_handle_mapping.
  rewrite Hmem. simpl. rewrite Z.eqb_refl. repeat split; try done.
  intros b Hb. apply not_eq_sym, Z.eqb_neq in Hb. by rewrite Hb.
Qed.

Lemma insert_then_lookup_witness :
  env_kmalloc (Example.answers true) = true
  /\ drm_prime_lookup_fd_handle_mapping
       (drm_prime_insert_fd_handle_mapping (Example.answers true)
          Example.buf 9 Example.registered).2 Example.buf
     = (0, Some 9).
Proof.
  split; [reflexivity|].
  pose proof (insert_then_lookup (Example.answers true) Example.buf 9
                Example.registered eq_refl) as H.
  destruct (drm_prime_insert_fd_handle_mapping (Example.answers true)
              Example.buf 9 Example.registered) as [ret w'].
  exact (proj1 (proj2 H)).
Defined.

Lemma remove_members_freed (head : list drm_prime_member) (dma_buf : Z) :
  (remove_members head dma_buf).2 = Z.of_nat (count_members dma_buf head).
Proof.
  induction head as [|member rest IH]; simpl; [done|].
  destruct (remove_members rest dma_buf) as [kept freed]. simpl in *.
  destruct (member_dma_buf member =? dma_buf); simpl; lia.
Qed.

Lemma remove_members_length (head : list drm_prime_member) (dma_buf : Z) :
  Z.of_nat (length (remove_members head dma_buf).1)
  = Z.of_nat (length head) - (remove_members head dma_buf).2.
Proof.
  induction head as [|member rest IH]; simpl; [done|].
  destruct (remove_members rest dma_buf) as [kept freed]. simpl in *.
  destruct (member_dma_buf member =? dma_buf); simpl; lia.
Qed.

Lemma remove_members_other (head : list drm_prime_member) (dma_buf b : Z) :
  b <> dma_buf ->
  lookup_members (remove_members head dma_buf).1 b = lookup_members head b.
Proof.
  intros Hb. induction head as [|member rest IH]; simpl; [done|].
  destruct (remove_members rest dma_buf) as [kept freed]. simpl in *.
  destruct (Z.eqb_spec (member_dma_buf member) dma_buf) as [E|E]; simpl.
  - rewrite E. apply not_eq_sym, Z.eqb_neq in Hb. by rewrite Hb.
  - by rewrite IH.
Qed.

Lemma remove_members_absent (head : list drm_prime_member) (dma_buf : Z) :
  count_members dma_buf head = 0%nat ->
  remove_members head dma_buf = (head, 0).
Proof.
  induction head as [|member rest IH]; simpl; [done|].
  destruct (member_dma_buf member =? dma_buf); simpl; [lia|].
  intros H. by rewrite (IH H).
Qed.

(** X3. The remove unlinks and frees every node that carries the
    identity, not only the first: afterwards the lookup of the identity
    misses, the lookup of every other identity is as before, and the slab
    holds as many blocks fewer as nodes carried the identity.  When none
    did, nothing changes. *)
Theorem remove_then_lookup (w : world) (dma_buf : Z) :
  let w' := drm_prime_remove_fd_handle_mapping w dma_buf in
  drm_prime_lookup_fd_handle_mapping w' dma_buf = (- ENOENT, None)
  /\ (forall b, b <> dma_buf ->
        drm_prime_lookup_fd_handle_mapping w' b
        = drm_prime_lookup_fd_handle_mapping w b)
  /\ slab w' = slab w - Z.of_nat (count_members dma_buf (prime_head w))
  /\ (count_members dma_buf (prime_head w) = 0%nat -> w' = w).
Proof.
  cbv zeta.
  unfold drm_prime_remove_fd_handle_mapping,
    drm_prime_lookup_fd_handle_mapping.
  pose proof (remove_members_gone (prime_head w) dma_buf) as Hgone.
  pose proof (remove_members_freed (prime_head w) dma_buf) as Hfreed.
  pose proof (remove_members_other (prime_head w) dma_buf) as Hother.
  pose proof (remove_members_absent (prime_head w) dma_buf) as Habsent.
  destruct (remove_members (prime_head w) dma_buf) as [kept freed].
  simpl in *. repeat split.
  - by apply lookup_members_miss.
  - intros b Hb. by apply Hother.
  - by rewrite Hfreed.
  - intros H. specialize (Habsent H). inversion Habsent; subst.
    apply set_slab_prime_head_same. lia.
Qed.

(** X4. Insert and remove undo each other: inserting an identity the
    registry does not hold and removing it again gives back the very
    world, with the block of the node freed. *)
Theorem insert_then_remove (e : env) (dma_buf handle : Z) (w : world) :
  env_kmalloc e = true ->
  count_members dma_buf (prime_head w) = 0%nat ->
  drm_prime_remove_fd_handle_mapping
    (drm_prime_insert_fd_handle_mapping e dma_buf handle w).2 dma_buf
  = w.
Proof.
  intros Hmem Habsent.
  unfold drm_prime_insert_fd_handle_mapping, kmalloc,
    drm_prime_remove_fd_handle_mapping.
  rewrite Hmem. simpl.
  rewrite (remove_members_absent _ _ Habsent), Z.eqb_refl. simpl.
  destruct w. unfold set_slab, set_prime_head. simpl. f_equal. lia.
Qed.

Lemma insert_then_remove_witness :
  env_kmalloc (Example.answers true) = true
  /\ count_members Sample.buf2 (prime_head Example.registered) = 0%nat
  /\ drm_prime_remove_fd_handle_mapping
       (drm_prime_insert_fd_handle_mapping (Example.answers true)
          Sample.buf2 2 Example.registered).2 Sample.buf2
     = Example.registered.
Proof.
  split; [reflexivity|]. split; [reflexivity|].
  apply (insert_then_remove (Example.answers true) Sample.buf2 2
           Example.registered); reflexivity.
Defined.

(** ** Import, every path at once *)

(** What an Import can have done when it returns: either the registry and
    the slab are as before, and then a nonzero return value comes with
    untouched arguments and reference counts; or one node was linked for
    the identity of the descriptor, which the list did not hold. *)
Lemma import_outcomes (dev : drm_device) (e : env) (args : drm_prime_handle)
    (w : world) :
  let dma_buf := env_dma_buf_get e (args_fd args) in
  let r := drm_prime_fd_to_handle_ioctl dev e args w in
  (prime_head r.2 = prime_head w /\ slab r.2 = slab w
   /\ (r.1.1 <> 0 -> r.1.2 = args /\ dma_bufs r.2 = dma_bufs w))
  \/ (exists handle,
        r.1 = (0, set_args_handle handle args)
        /\ prime_head r.2 = Member dma_buf handle :: prime_head w
        /\ slab r.2 = slab w + 1
        /\ count_members dma_buf (prime_head w) = 0%nat).
Proof.
  cbv zeta.
  destruct (drm_core_check_feature dev DRIVER_PRIME) eqn:Hfeature;
    [|left; unfold drm_prime_fd_to_handle_ioctl; by rewrite Hfeature].
  destruct (prime_import dev) as [import|] eqn:Hcallback;
    [|left; unfold drm_prime_fd_to_handle_ioctl;
      by rewrite Hfeature, Hcallback].
  destruct (IS_ERR (env_dma_buf_get e (args_fd args))) eqn:Hresolved.
  { left. by walk_with ltac:(rewrite ?Hfeature, ?Hcallback, ?Hresolved). }
  destruct (lookup_members_cases (prime_head w)
              (env_dma_buf_get e (args_fd args))) as [Hmiss|[handle Hhit]].
  2:{ left.
      rewrite (import_hit dev e args w import _ Hfeature Hcallback eq_refl
                 Hresolved handle Hhit).
      unfold_collaborators. rewrite Hresolved. simpl. by repeat split. }
  pose proof (proj2 (lookup_members_miss _ _) Hmiss) as Hcount.
  destruct (IS_ERR_OR_NULL (import (env_dma_buf_get e (args_fd args))))
    eqn:Hobj.
  { left.
    rewrite (import_fail_driver dev e args w import _ Hfeature Hcallback
               eq_refl Hresolved _ Hmiss eq_refl Hobj).
    unfold_collaborators. rewrite Hresolved. simpl.
    rewrite alter_incr_decr. by repeat split. }
  destruct (env_gem_handle_create e
              (import (env_dma_buf_get e (args_fd args))))
    as [ret handle] eqn:Hcreate.
  destruct (decide (ret = 0)) as [->|Hret].
  2:{ left.
      rewrite (import_fail_handle dev e args w import _ Hfeature Hcallback
                 eq_refl Hresolved _ Hmiss eq_refl ret handle Hobj Hcreate
                 Hret).
      unfold_collaborators. rewrite Hresolved, Hcreate.
      apply Z.eqb_neq in Hret. rewrite Hret. simpl.
      rewrite alter_incr_decr. by repeat split. }
  destruct (env_kmalloc e) eqn:Hmem.
  - right. exists handle.
    by rewrite (import_new dev e args w import _ Hfeature Hcallback eq_refl
                  Hresolved _ Hmiss eq_refl handle Hobj Hcreate Hmem).
  - left.
    rewrite (import_fail_insert dev e args w import _ Hfeature Hcallback
               eq_refl Hresolved _ Hmiss eq_refl handle Hobj Hcreate Hmem).
    unfold_collaborators. rewrite Hresolved, Hcreate. simpl.
    rewrite alter_incr_decr. by repeat split.
Qed.

(** X5. Whatever the reason, an Import that returns a nonzero value has
    written nothing to [args], has left the registry and the slab as they
    were, and holds no reference it did not hold before: every dma-buf has
    the reference count it had. *)
Theorem import_error_no_effect (dev : drm_device) (e : env)
    (args : drm_prime_handle) (w : world) :
  (drm_prime_fd_to_handle_ioctl dev e args w).1.1 <> 0 ->
  let '(ret, out, w') := drm_prime_fd_to_handle_ioctl dev e args w in
  out = args
  /\ prime_head w' = prime_head w
  /\ slab w' = slab w
  /\ dma_bufs w' = dma_bufs w.
Proof.
  intros Hret.
  destruct (import_outcomes dev e args w)
    as [(Hhead & Hslab & Herr)|(handle & Hr & _)].
  - destruct (Herr Hret) as [Hout Hrefs].
    destruct (drm_prime_fd_to_handle_ioctl dev e args w) as [[ret out] w'].
    by simpl in *.
  - rewrite Hr in Hret. by simpl in Hret.
Qed.

Lemma import_error_no_effect_witness :
  (drm_prime_fd_to_handle_ioctl Example.driver (Example.answers false)
     Example.import_args Example.session).1.1 <> 0
  /\ (drm_prime_fd_to_handle_ioctl Example.driver (Example.answers false)
        Example.import_args Example.session).1.2
     = Example.import_args.
Proof.
  assert (Hret : (drm_prime_fd_to_handle_ioctl Example.driver
                    (Example.answers false) Example.import_args
                    Example.session).1.1 <> 0) by (vm_compute; discriminate).
  split; [exact Hret|].
  pose proof (import_error_no_effect Example.driver (Example.answers false)
                Example.import_args Example.session Hret) as H.
  destruct (drm_prime_fd_to_handle_ioctl Example.driver
              (Example.answers false) Example.import_args Example.session)
    as [[ret out] w'].
  exact (proj1 H).
Defined.

Lemma step_slab_balance (w : world) (o : op) :
  slab (step w o) - Z.of_nat (length (prime_head (step w o)))
  = slab w - Z.of_nat (length (prime_head w)).
Proof.
  destruct o as [dev e args|dma_buf|]; simpl.
  - destruct (import_outcomes dev e args w)
      as [(-> & -> & _)|(handle & _ & -> & -> & _)]; simpl; lia.
  - unfold drm_prime_remove_fd_handle_mapping.
    pose proof (remove_members_length (prime_head w) dma_buf) as Hlen.
    destruct (remove_members (prime_head w) dma_buf) as [kept freed].
    simpl in *. lia.
  - destruct (teardown_empty w) as [-> ->]. simpl. lia.
Qed.

(** X6. Registry nodes are neither leaked nor freed twice: over every
    sequence of Import, remove and teardown operations the number of live
    slab blocks moves exactly with the number of registry nodes, so a
    teardown after any such sequence leaves the slab lower than it began by
    the nodes the registry held at the beginning (by nothing, for a session
    that began with an empty registry). *)
Theorem registry_slab_balance (ops : list op) (w : world) :
  slab (run ops w) - Z.of_nat (length (prime_head (run ops w)))
  = slab w - Z.of_nat (length (prime_head w))
  /\ slab (drm_prime_destroy_file_private (run ops w))
     = slab w - Z.of_nat (length (prime_head w)).
Proof.
  assert (Hrun : slab (run ops w) - Z.of_nat (length (prime_head (run ops w)))
                 = slab w - Z.of_nat (length (prime_head w))).
  { unfold run. revert w.
    induction ops as [|o ops IH]; intros w; simpl; [done|].
    rewrite IH. apply step_slab_balance. }
  split; [exact Hrun|].
  destruct (teardown_empty (run ops w)) as [_ ->]. exact Hrun.
Qed.

(** ** Import and Export refused or given a bad descriptor *)

(** X7. A device without the PRIME feature bit gets -EINVAL from both
    ioctls, also when its driver has no callback; a device with the bit
    whose driver lacks the callback gets -ENOSYS.  In both cases nothing
    has been done: no descriptor resolved, no handle looked up, no
    reference taken, nothing written to [args]. *)
Theorem prime_not_supported (dev : drm_device) (e : env)
    (args : drm_prime_handle) (w : world) :
  let ret :=
    if drm_core_check_feature dev DRIVER_PRIME then - ENOSYS else - EINVAL in
  (drm_core_check_feature dev DRIVER_PRIME = false \/ prime_import dev = None
   -> drm_prime_fd_to_handle_ioctl dev e args w = (ret, args, w))
  /\ (drm_core_check_feature dev DRIVER_PRIME = false
      \/ prime_export dev = None
      -> drm_prime_handle_to_fd_ioctl dev e args w = Some (ret, args, w)).
Proof.
  cbv zeta.
  unfold drm_prime_fd_to_handle_ioctl, drm_prime_handle_to_fd_ioctl.
  destruct (drm_core_check_feature dev DRIVER_PRIME); simpl.
  - split; (intros [H| ->]; [discriminate H | done]).
  - by split.
Qed.

(** X8. When the descriptor does not resolve ([dma_buf_get] returns an
    errno pointer), Import returns that errno, which is negative, having
    only called [dma_buf_get]: the driver is not called, and nothing is
    released, as no reference was taken. *)
Theorem import_bad_descriptor (dev : drm_device) (e : env)
    (args : drm_prime_handle) (w : world) (import : Z -> Z) :
  drm_core_check_feature dev DRIVER_PRIME = true ->
  prime_import dev = Some import ->
  is_ptr (env_dma_buf_get e (args_fd args)) ->
  IS_ERR (env_dma_buf_get e (args_fd args)) = true ->
  drm_prime_fd_to_handle_ioctl dev e args w
  = (PTR_ERR (env_dma_buf_get e (args_fd args)), args,
     log (call_dma_buf_get (args_fd args)) w)
  /\ - MAX_ERRNO <= PTR_ERR (env_dma_buf_get e (args_fd args)) < 0.
Proof.
  intros Hfeature Hcallback Hptr Herr.
  split; [|by apply PTR_ERR_IS_ERR].
  by walk_with ltac:(rewrite ?Hfeature, ?Hcallback, ?Herr).
Qed.

Lemma import_bad_descriptor_witness :
  drm_prime_fd_to_handle_ioctl Example.driver Sample.bad_fd_answers
    Example.import_args Example.registered
  = (- 9, Example.import_args,
     log (call_dma_buf_get 5) Example.registered).
Proof.
  assert (Hptr : is_ptr (env_dma_buf_get Sample.bad_fd_answers
                           (args_fd Example.import_args)))
    by (vm_compute; split; [discriminate | reflexivity]).
  exact (proj1 (import_bad_descriptor Example.driver Sample.bad_fd_answers
                  Example.import_args Example.registered
                  (λ _, Example.imported) eq_refl eq_refl Hptr eq_refl)).
Defined.

(** ** Import of an identity not seen before *)

(** X9. An Import that misses in the registry and whose driver import,
    handle creation and insert succeed returns 0 with the new handle in
    [args], and leaves exactly one node for the identity, which the lookup
    then answers with that handle.  It keeps the reference it took on the
    dma-buf (the count is one higher than before; [dma_buf_put] is not
    called), drops the reference the driver returned on the object, and
    holds one more slab block. *)
Theorem import_new_registers (dev : drm_device) (e : env)
    (args : drm_prime_handle) (w : world) (import : Z -> Z)
    (dma_buf obj handle : Z) :
  drm_core_check_feature dev DRIVER_PRIME = true ->
  prime_import dev = Some import ->
  env_dma_buf_get e (args_fd args) = dma_buf ->
  IS_ERR dma_buf = false ->
  drm_prime_lookup_fd_handle_mapping w dma_buf = (- ENOENT, None) ->
  import dma_buf = obj ->
  IS_ERR_OR_NULL obj = false ->
  env_gem_handle_create e obj = (0, handle) ->
  env_kmalloc e = true ->
  let '(ret, out, w') := drm_prime_fd_to_handle_ioctl dev e args w in
  ret = 0
  /\ out = set_args_handle handle args
  /\ drm_prime_lookup_fd_handle_mapping w' dma_buf = (0, Some handle)
  /\ count_members dma_buf (prime_head w') = 1%nat
  /\ dma_bufs w' = alter (λ n, n + 1) dma_buf (dma_bufs w)
  /\ slab w' = slab w + 1
  /\ calls w'
     = calls w ++ [call_dma_buf_get (args_fd args); call_prime_import dma_buf;
                   call_gem_handle_create obj;
                   call_gem_object_unreference obj].
Proof.
  intros Hfeature Hcallback Hresolves Hresolved Hmiss Himports Hobj Hcreate
    Hmem.
  rewrite (import_new dev e args w import dma_buf Hfeature Hcallback
             Hresolves Hresolved obj Hmiss Himports handle Hobj Hcreate Hmem).
  pose proof (proj2 (lookup_members_miss (prime_head w) dma_buf) Hmiss)
    as Hcount.
  unfold drm_prime_lookup_fd_handle_mapping. unfold_collaborators.
  rewrite Hresolves, Hresolved, Hcreate. simpl.
  rewrite Z.eqb_refl, Hcount, <- !app_assoc. by repeat split.
Qed.

Lemma import_new_registers_witness :
  drm_prime_lookup_fd_handle_mapping
    (drm_prime_fd_to_handle_ioctl Sample.driver2 Sample.answers2
       Example.import_args Example.registered).2 Sample.buf2
  = (0, Some 2).
Proof.
  pose proof (import_new_registers Sample.driver2 Sample.answers2
                Example.import_args Example.registered
                (λ dma_buf,
                   if dma_buf =? Sample.buf2 then Sample.imported2
                   else Example.imported)
                Sample.buf2 Sample.imported2 2
                eq_refl eq_refl eq_refl eq_refl eq_refl eq_refl eq_refl
                eq_refl eq_refl) as H.
  destruct (drm_prime_fd_to_handle_ioctl Sample.driver2 Sample.answers2
              Example.import_args Example.registered) as [[ret out] w'].
  exact (proj1 (proj2 (proj2 H))).
Defined.

(** X10. Imports of two descriptors that resolve to two different
    identities, both new to the registry and both going through, call the
    driver's import callback twice and leave two nodes, one per identity:
    each identity is then looked up to the handle its own Import
    returned. *)
Theorem import_two_identities (dev : drm_device) (e1 e2 : env)
    (args1 args2 : drm_prime_handle) (w : world) (import : Z -> Z)
    (dma_buf1 dma_buf2 obj1 obj2 handle1 handle2 : Z) :
  drm_core_check_feature dev DRIVER_PRIME = true ->
  prime_import dev = Some import ->
  env_dma_buf_get e1 (args_fd args1) = dma_buf1 ->
  env_dma_buf_get e2 (args_fd args2) = dma_buf2 ->
  dma_buf1 <> dma_buf2 ->
  IS_ERR dma_buf1 = false -> IS_ERR dma_buf2 = false ->
  drm_prime_lookup_fd_handle_mapping w dma_buf1 = (- ENOENT, None) ->
  drm_prime_lookup_fd_handle_mapping w dma_buf2 = (- ENOENT, None) ->
  import dma_buf1 = obj1 -> import dma_buf2 = obj2 ->
  IS_ERR_OR_NULL obj1 = false -> IS_ERR_OR_NULL obj2 = false ->
  env_gem_handle_create e1 obj1 = (0, handle1) ->
  env_gem_handle_create e2 obj2 = (0, handle2) ->
  env_kmalloc e1 = true -> env_kmalloc e2 = true ->
  let '(ret1, out1, w1) := drm_prime_fd_to_handle_ioctl dev e1 args1 w in
  let '(ret2, out2, w2) := drm_prime_fd_to_handle_ioctl dev e2 args2 w1 in
  (ret1 = 0 /\ args_handle out1 = handle1)
  /\ (ret2 = 0 /\ args_handle out2 = handle2)
  /\ prime_head w2
     = Member dma_buf2 handle2 :: Member dma_buf1 handle1 :: prime_head w
  /\ drm_prime_lookup_fd_handle_mapping w2 dma_buf1 = (0, Some handle1)
  /\ drm_prime_lookup_fd_handle_mapping w2 dma_buf2 = (0, Some handle2)
  /\ count_calls is_prime_import (calls w2)
     = S (S (count_calls is_prime_import (calls w))).
Proof.
  intros Hfeature Hcallback Hresolves1 Hresolves2 Hne Hresolved1 Hresolved2
    Hmiss1 Hmiss2 Himports1 Himports2 Hobj1 Hobj2 Hcreate1 Hcreate2 Hmem1
    Hmem2.
  rewrite (import_new dev e1 args1 w import dma_buf1 Hfeature Hcallback
             Hresolves1 Hresolved1 obj1 Hmiss1 Himports1 handle1 Hobj1
             Hcreate1 Hmem1).
  match goal with |- context [drm_prime_fd_to_handle_ioctl dev e2 args2 ?w] =>
    set (w1 := w) end.
  assert (Hne' : (dma_buf1 =? dma_buf2) = false) by by apply Z.eqb_neq.
  assert (Hne'' : (dma_buf2 =? dma_buf1) = false)
    by by apply Z.eqb_neq, not_eq_sym.
  assert (Hmiss : lookup_members (prime_head w1) dma_buf2 = (- ENOENT, None)).
  { subst w1. simpl. by rewrite Hne'. }
  rewrite (import_new dev e2 args2 w1 import dma_buf2 Hfeature Hcallback
             Hresolves2 Hresolved2 obj2 Hmiss Himports2 handle2 Hobj2
             Hcreate2 Hmem2).
  subst w1. unfold drm_prime_lookup_fd_handle_mapping. unfold_collaborators.
  rewrite Hresolves1, Hresolves2, Hresolved1, Hresolved2, Hcreate1, Hcreate2.
  simpl. rewrite Hne'', !Z.eqb_refl, !count_calls_app. simpl.
  repeat split; lia.
Qed.

Lemma import_two_identities_witness :
  prime_head
    (drm_prime_fd_to_handle_ioctl Sample.driver2 Sample.answers2
       Example.import_args
       (drm_prime_fd_to_handle_ioctl Sample.driver2 (Example.answers true)
          Example.import_args Example.session).2).2
  = [Member Sample.buf2 2; Member Example.buf 1].
Proof.
  pose proof (import_two_identities Sample.driver2 (Example.answers true)
                Sample.answers2 Example.import_args Example.import_args
                Example.session
                (λ dma_buf,
                   if dma_buf =? Sample.buf2 then Sample.imported2
                   else Example.imported)
                Example.buf Sample.buf2 Example.imported Sample.imported2 1 2
                eq_refl eq_refl eq_refl eq_refl) as H.
  assert (Hne : Example.buf <> Sample.buf2) by discriminate.
  specialize (H Hne eq_refl eq_refl eq_refl eq_refl eq_refl eq_refl eq_refl
                eq_refl eq_refl eq_refl eq_refl eq_refl).
  destruct (drm_prime_fd_to_handle_ioctl Sample.driver2
              (Example.answers true) Example.import_args Example.session)
    as [[ret1 out1] w1].
  simpl.
  destruct (drm_prime_fd_to_handle_ioctl Sample.driver2 Sample.answers2
              Example.import_args w1) as [[ret2 out2] w2].
  exact (proj1 (proj2 (proj2 H))).
Defined.

(** ** Export, every path at once *)

(** Split Export into its paths: refused, unknown handle, NULL in the
    handle table, dead object, failed callback, new wrapper, cached
    wrapper. *)
Ltac export_paths dev e args w :=
  let Hfeature := fresh "Hfeature" in
  let Hcallback := fresh "Hcallback" in
  let Hnamed := fresh "Hnamed" in
  let Hobj := fresh "Hobj" in
  let Halive := fresh "Halive" in
  let Hcached := fresh "Hcached" in
  let Hbuf := fresh "Hbuf" in
  let export := fresh "export" in
  let obj := fresh "obj" in
  let o := fresh "o" in
  destruct (drm_core_check_feature dev DRIVER_PRIME) eqn:Hfeature;
    [|unfold drm_prime_handle_to_fd_ioctl; rewrite Hfeature; simpl];
  [destruct (prime_export dev) as [export|] eqn:Hcallback;
    [|unfold drm_prime_handle_to_fd_ioctl; rewrite Hfeature, Hcallback; simpl];
   [destruct (object_idr w !! args_handle args) as [obj|] eqn:Hnamed;
     [|unfold drm_prime_handle_to_fd_ioctl, drm_gem_object_lookup;
       rewrite Hfeature, Hcallback; simpl; rewrite Hnamed; simpl];
    [destruct (decide (obj = NULL)) as [Hobj|Hobj];
      [subst obj; unfold drm_prime_handle_to_fd_ioctl, drm_gem_object_lookup;
       rewrite Hfeature, Hcallback; simpl; rewrite Hnamed; simpl|];
     [|destruct (gem_objects w !! obj) as [o|] eqn:Halive;
        [|unfold drm_prime_handle_to_fd_ioctl, drm_gem_object_lookup;
          rewrite Hfeature, Hcallback; simpl; rewrite Hnamed; simpl;
          apply Z.eqb_neq in Hobj; rewrite Hobj, lookup_alter_eq, Halive;
          simpl];
       [destruct (decide (export_dma_buf o = NULL)) as [Hcached|Hcached];
         [destruct (IS_ERR_OR_NULL (export obj (args_flags args))) eqn:Hbuf;
           [rewrite (export_fail dev e args w export obj o Hfeature Hcallback
                       Hnamed Hobj Halive Hcached _ eq_refl Hbuf)
           |rewrite (export_new dev e args w export obj o Hfeature Hcallback
                       Hnamed Hobj Halive Hcached _ eq_refl Hbuf)]
         |rewrite (export_cached dev e args w export obj o Hfeature Hcallback
                     Hnamed Hobj Halive Hcached)];
        unfold drm_gem_object_unreference_unlocked, dma_buf_fd,
          drm_gem_object_lookup; simpl; rewrite Hnamed; simpl|]]|]|]|].

(** X11. Export has nothing to do with the registry of imported buffers:
    on every path it leaves the registry list, the slab and the handle
    table as they were, and it calls neither the driver's import callback
    nor [dma_buf_put]. *)
Theorem export_leaves_registry (dev : drm_device) (e : env)
    (args : drm_prime_handle) (w : world) :
  match drm_prime_handle_to_fd_ioctl dev e args w with
  | Some (ret, out, w') =>
      prime_head w' = prime_head w
      /\ slab w' = slab w
      /\ object_idr w' = object_idr w
      /\ count_calls is_prime_import (calls w')
         = count_calls is_prime_import (calls w)
      /\ count_calls is_dma_buf_put (calls w')
         = count_calls is_dma_buf_put (calls w)
  | None => True
  end.
Proof.
  export_paths dev e args w; try done;
    try destruct (_ <? 0); simpl; rewrite ?count_calls_app; simpl;
    repeat split; lia.
Qed.

Lemma refcount_restored (m : gmap Z drm_gem_object) (obj p : Z)
    (o : drm_gem_object) (dma_buf : Z) :
  m !! obj = Some o ->
  refcount
    <$> alter (add_refcount (-1)) obj
          (<[obj := set_export_dma_buf dma_buf (add_refcount 1 o)]>
             (alter (add_refcount 1) obj m)) !! p
  = refcount <$> m !! p.
Proof.
  intros Halive. destruct (decide (obj = p)) as [->|Hne].
  - rewrite lookup_alter_eq, lookup_insert_eq, Halive. simpl. f_equal. lia.
  - by rewrite lookup_alter_ne, lookup_insert_ne, lookup_alter_ne.
Qed.

(** X12. Whatever the reason, an Export that returns a nonzero value has
    not written [args->fd] and holds no reference it did not hold before:
    every GEM object has the reference count it had, the reference taken
    by the handle lookup having been dropped when the driver failed.  (The
    handle table is taken to hold no NULL object.) *)
Theorem export_error_keeps_counts (dev : drm_device) (e : env)
    (args : drm_prime_handle) (w : world) :
  object_idr w !! args_handle args <> Some NULL ->
  match drm_prime_handle_to_fd_ioctl dev e args w with
  | Some (ret, out, w') =>
      ret <> 0 ->
      out = args
      /\ forall p, refcount <$> gem_objects w' !! p
                   = refcount <$> gem_objects w !! p
  | None => True
  end.
Proof.
  intros Hnonnull.
  export_paths dev e args w; try done.
  split; [done|]. intros p. by apply refcount_restored.
Qed.

Lemma export_error_keeps_counts_witness :
  object_idr Example.session !! args_handle Example.export_args <> Some NULL
  /\ match
       drm_prime_handle_to_fd_ioctl Example.errno_driver
         (Example.answers true) Example.export_args Example.session
     with
     | Some (ret, out, w') =>
         ret = - ENOMEM /\ out = Example.export_args
         /\ refcount <$> gem_objects w' !! Example.obj = Some 1
     | None => False
     end.
Proof.
  assert (Hnonnull : object_idr Example.session
                       !! args_handle Example.export_args <> Some NULL)
    by (vm_compute; discriminate).
  split; [exact Hnonnull|].
  pose proof (export_error_keeps_counts Example.errno_driver
                (Example.answers true) Example.export_args Example.session
                Hnonnull) as H.
  destruct (drm_prime_handle_to_fd_ioctl Example.errno_driver
              (Example.answers true) Example.export_args Example.session)
    as [[[ret out] w']|] eqn:E; vm_compute in E; [|discriminate E].
  inversion E; subst. split; [reflexivity|].
  assert (Hret : -12 <> 0) by discriminate.
  destruct (H Hret) as [Hout Hcounts]. split; [exact Hout|].
  exact (Hcounts Example.obj).
Defined.

(** X13. An Export that succeeds, by creating the wrapper or by finding
    it cached, returns with one more reference on the object than before:
    the reference taken by the handle lookup is kept on both paths.  The
    wrapper it binds a descriptor to is the one left in
    [obj->export_dma_buf]. *)
Theorem export_keeps_reference (dev : drm_device) (e : env)
    (args : drm_prime_handle) (w : world) (export : Z -> Z -> Z)
    (obj : Z) (o : drm_gem_object) :
  drm_core_check_feature dev DRIVER_PRIME = true ->
  prime_export dev = Some export ->
  object_idr w !! args_handle args = Some obj ->
  obj <> NULL ->
  gem_objects w !! obj = Some o ->
  export_dma_buf o <> NULL
  \/ IS_ERR_OR_NULL (export obj (args_flags args)) = false ->
  let wrapper :=
    if export_dma_buf o =? NULL then export obj (args_flags args)
    else export_dma_buf o in
  exists w' : world,
    drm_prime_handle_to_fd_ioctl dev e args w
    = Some (0, set_args_fd (env_dma_buf_fd e wrapper) args, w')
    /\ gem_objects w' !! obj
       = Some (set_export_dma_buf wrapper (add_refcount 1 o)).
Proof.
  intros Hfeature Hcallback Hnamed Hobj Halive Hok. cbv zeta.
  destruct (decide (export_dma_buf o = NULL)) as [Hnone|Hcached].
  - destruct Hok as [Hok|Hok]; [done|]. rewrite Hnone. simpl.
    rewrite (export_new dev e args w export obj o Hfeature Hcallback Hnamed
               Hobj Halive Hnone _ eq_refl Hok).
    eexists. split; [reflexivity|].
    unfold dma_buf_fd, drm_gem_object_lookup. simpl. rewrite Hnamed.
    destruct (_ <? 0); simpl; by rewrite lookup_insert_eq.
  - rewrite (export_cached dev e args w export obj o Hfeature Hcallback
               Hnamed Hobj Halive Hcached).
    apply Z.eqb_neq in Hcached. rewrite Hcached.
    eexists. split; [reflexivity|].
    unfold dma_buf_fd, drm_gem_object_lookup. simpl. rewrite Hnamed.
    destruct (_ <? 0); simpl; rewrite lookup_alter_eq, Halive; simpl;
      by destruct o.
Qed.

Lemma export_keeps_reference_witness :
  exists w' : world,
    drm_prime_handle_to_fd_ioctl Example.driver (Example.answers true)
      Example.export_args Sample.exported
    = Some (0, set_args_fd 3 Example.export_args, w')
    /\ gem_objects w' !! Example.obj
       = Some {| refcount := 3; handle_count := 1;
                 export_dma_buf := Example.buf; import_attach := NULL |}.
Proof.
  assert (Hobj : Example.obj <> NULL) by discriminate.
  assert (Hok : export_dma_buf
                  {| refcount := 2; handle_count := 1;
                     export_dma_buf := Example.buf; import_attach := NULL |}
                <> NULL
                \/ IS_ERR_OR_NULL
                     ((λ _ _ : Z, Example.buf) Example.obj
                        (args_flags Example.export_args)) = false)
    by (left; discriminate).
  exact (export_keeps_reference Example.driver (Example.answers true)
           Example.export_args Sample.exported (λ _ _, Example.buf)
           Example.obj _ eq_refl eq_refl eq_refl Hobj eq_refl Hok).
Defined.

Lemma IS_ERR_not_NULL (p : Z) : IS_ERR p = true -> p <> NULL.
Proof. intros H ->. discriminate H. Qed.

(** X14. What the driver returned is stored in [obj->export_dma_buf]
    before it is checked, and a failure does not clear it: after an Export
    that failed with an errno pointer from the driver, the next Export of
    the handle takes that pointer for a cached wrapper, does not call the
    driver again, hands the pointer to [dma_buf_fd] and returns 0. *)
Theorem export_errno_stays_cached (dev : drm_device) (e1 e2 : env)
    (args1 args2 : drm_prime_handle) (w : world) (export : Z -> Z -> Z)
    (obj p : Z) (o : drm_gem_object) :
  drm_core_check_feature dev DRIVER_PRIME = true ->
  prime_export dev = Some export ->
  object_idr w !! args_handle args1 = Some obj ->
  args_handle args2 = args_handle args1 ->
  obj <> NULL ->
  gem_objects w !! obj = Some o ->
  export_dma_buf o = NULL ->
  export obj (args_flags args1) = p ->
  IS_ERR p = true ->
  exists w' : world,
    export_calls dev [(e1, args1); (e2, args2)] w
    = Some ([(PTR_ERR p, args1);
             (0, set_args_fd (env_dma_buf_fd e2 p) args2)], w')
    /\ count_calls is_prime_export (calls w')
       = S (count_calls is_prime_export (calls w))
    /\ export_dma_buf <$> gem_objects w' !! obj = Some p.
Proof.
  intros Hfeature Hcallback Hnamed Hsame Hobj Halive Hnone Hexports Herr.
  assert (Hbuf : IS_ERR_OR_NULL p = true).
  { unfold IS_ERR_OR_NULL. unfold IS_ERR in Herr. rewrite Herr.
    apply orb_true_r. }
  pose proof (IS_ERR_not_NULL p Herr) as Hp.
  simpl.
  rewrite (export_fail dev e1 args1 w export obj o Hfeature Hcallback Hnamed
             Hobj Halive Hnone p Hexports Hbuf). simpl.
  match goal with
  | |- context [drm_prime_handle_to_fd_ioctl dev e2 args2 ?w0] =>
      set (w1 := w0)
  end.
  assert (Hw1 : object_idr w1 !! args_handle args2 = Some obj
                /\ gem_objects w1 !! obj
                   = Some (add_refcount (-1)
                             (set_export_dma_buf p (add_refcount 1 o)))
                /\ count_calls is_prime_export (calls w1)
                   = S (count_calls is_prime_export (calls w))).
  { subst w1.
    unfold drm_gem_object_unreference_unlocked, drm_gem_object_lookup.
    simpl. rewrite Hnamed, Hsame. simpl.
    rewrite lookup_alter_eq, lookup_insert_eq, !count_calls_app. simpl.
    repeat split; try done. lia. }
  destruct Hw1 as (Hnamed1 & Halive1 & Hcount1). clearbody w1.
  rewrite (export_cached dev e2 args2 w1 export obj _ Hfeature Hcallback
             Hnamed1 Hobj Halive1 Hp). simpl.
  eexists. split; [reflexivity|].
  unfold dma_buf_fd, drm_gem_object_lookup. simpl. rewrite Hnamed1.
  destruct (_ <? 0); simpl;
    rewrite lookup_alter_eq, Halive1, !count_calls_app; simpl;
    split; try done; lia.
Qed.

Lemma export_errno_stays_cached_witness :
  exists w' : world,
    export_calls Example.errno_driver
      [(Example.answers true, Example.export_args);
       (Example.answers false, Example.export_args)] Example.session
    = Some ([(PTR_ERR (ERR_PTR (- ENOMEM)), Example.export_args);
             (0, set_args_fd 3 Example.export_args)], w')
    /\ count_calls is_prime_export (calls w') = 1%nat
    /\ export_dma_buf <$> gem_objects w' !! Example.obj
       = Some (ERR_PTR (- ENOMEM)).
Proof.
  assert (Hobj : Example.obj <> NULL) by discriminate.
  exact (export_errno_stays_cached Example.errno_driver
           (Example.answers true) (Example.answers false)
           Example.export_args Example.export_args Example.session
           (λ _ _, ERR_PTR (- ENOMEM)) Example.obj (ERR_PTR (- ENOMEM)) _
           eq_refl eq_refl eq_refl eq_refl Hobj eq_refl eq_refl eq_refl
           eq_refl).
Defined.

(** X15. Once a wrapper is cached on the object, Export looks neither at
    [args->flags] nor at the driver's callback: with other flags, and with
    another export callback, it returns the same value, binds the same
    wrapper to a descriptor and leaves the same world. *)
Theorem export_cached_ignores_flags (dev dev' : drm_device) (e : env)
    (args : drm_prime_handle) (flags : Z) (w : world)
    (export export' : Z -> Z -> Z) (obj : Z) (o : drm_gem_object) :
  drm_core_check_feature dev DRIVER_PRIME = true ->
  drm_core_check_feature dev' DRIVER_PRIME = true ->
  prime_export dev = Some export ->
  prime_export dev' = Some export' ->
  object_idr w !! args_handle args = Some obj ->
  obj <> NULL ->
  gem_objects w !! obj = Some o ->
  export_dma_buf o <> NULL ->
  exists w' : world,
    drm_prime_handle_to_fd_ioctl dev e args w
    = Some (0, set_args_fd (env_dma_buf_fd e (export_dma_buf o)) args, w')
    /\ drm_prime_handle_to_fd_ioctl dev' e (set_args_flags flags args) w
       = Some (0, set_args_fd (env_dma_buf_fd e (export_dma_buf o))
                    (set_args_flags flags args), w')
    /\ count_calls is_prime_export (calls w')
       = count_calls is_prime_export (calls w).
Proof.
  intros Hfeature Hfeature' Hcallback Hcallback' Hnamed Hobj Halive Hcached.
  rewrite (export_cached dev e args w export obj o Hfeature Hcallback Hnamed
             Hobj Halive Hcached).
  rewrite (export_cached dev' e (set_args_flags flags args) w export' obj o
             Hfeature' Hcallback' Hnamed Hobj Halive Hcached).
  eexists. split; [reflexivity|]. split; [reflexivity|].
  unfold dma_buf_fd, drm_gem_object_lookup. simpl. rewrite Hnamed.
  destruct (_ <? 0); simpl; rewrite !count_calls_app; simpl; lia.
Qed.

Lemma export_cached_ignores_flags_witness :
  exists w' : world,
    drm_prime_handle_to_fd_ioctl Example.driver (Example.answers true)
      Example.export_args Sample.exported
    = Some (0, set_args_fd 3 Example.export_args, w')
    /\ drm_prime_handle_to_fd_ioctl Example.null_driver
         (Example.answers true) (set_args_flags 2 Example.export_args)
         Sample.exported
       = Some (0, set_args_fd 3 (set_args_flags 2 Example.export_args), w').
Proof.
  assert (Hobj : Example.obj <> NULL) by discriminate.
  assert (Hcached : export_dma_buf
                      {| refcount := 2; handle_count := 1;
                         export_dma_buf := Example.buf;
                         import_attach := NULL |} <> NULL) by discriminate.
  destruct (export_cached_ignores_flags Example.driver Example.null_driver
              (Example.answers true) Example.export_args 2 Sample.exported
              (λ _ _, Example.buf) (λ _ _, NULL) Example.obj _
              eq_refl eq_refl eq_refl eq_refl eq_refl Hobj eq_refl Hcached)
    as (w' & H1 & H2 & _).
  exists w'. by split.
Defined.

(** ** The scatter table, read back *)

Lemma sg_bytes_pages (pages : list Z) :
  sg_bytes (map (λ page, Scatterlist page 0 PAGE_SIZE) pages)
  = PAGE_SIZE * Z.of_nat (length pages).
Proof.
  induction pages as [|page pages IH]; simpl sg_bytes; simpl length; lia.
Qed.

(** X16. The table the builder returns gives the page array back: the
    pages of its segments, in order, are the pages it was given, and the
    segments cover PAGE_SIZE bytes per page, nr_pages * PAGE_SIZE in
    all. *)
Theorem pages_to_sg_read_back (a : sg_env) (pages : list Z) (w : world) :
  pages <> [] ->
  match drm_prime_pages_to_sg a pages w with
  | (Some sg, w') =>
      map sg_page (sgl sg) = pages
      /\ sg_bytes (sgl sg) = PAGE_SIZE * Z.of_nat (length pages)
      /\ orig_nents sg = nents sg
  | (None, w') => True
  end.
Proof.
  intros _. unfold drm_prime_pages_to_sg, kzalloc, sg_alloc_table.
  destruct (env_kzalloc a); simpl; [|done].
  destruct (env_sg_alloc_table a =? 0) eqn:Hret; simpl; rewrite Hret; simpl;
    [|done].
  pose proof (for_each_sg_set_page_app [] pages) as Hloop.
  simpl in Hloop. rewrite Hloop, sg_bytes_pages, map_map. simpl.
  by rewrite map_id.
Qed.

Lemma pages_to_sg_read_back_witness :
  [11; 22; 33] <> ([] : list Z)
  /\ match drm_prime_pages_to_sg (SgEnv true 0) [11; 22; 33] Example.session
     with
     | (Some sg, w') =>
         map sg_page (sgl sg) = [11; 22; 33] /\ sg_bytes (sgl sg) = 12288
     | (None, w') => False
     end.
Proof.
  assert (Hpages : [11; 22; 33] <> ([] : list Z)) by discriminate.
  split; [exact Hpages|].
  pose proof (pages_to_sg_read_back (SgEnv true 0) [11; 22; 33]
                Example.session Hpages) as H.
  destruct (drm_prime_pages_to_sg (SgEnv true 0) [11; 22; 33]
              Example.session) as [[sg|] w'] eqn:E.
  - destruct H as (Hpg & Hbytes & _). split; [exact Hpg|exact Hbytes].
  - vm_compute in E. discriminate E.
Defined.

(** ** Release of an imported object *)

(** X17. [drm_prime_gem_destroy] reads [obj->import_attach] and the
    attachment's [dmabuf] without any check.  On a live object with a live
    attachment it detaches that attachment from its dma-buf exactly once,
    as the last call, after unmapping the scatter table when one is given
    and without that call when [sg] is NULL.  On an object that is not
    alive or has no live attachment (one that was never imported) it has
    no defined behaviour. *)
Theorem gem_destroy_detaches (attachments : gmap Z Z) (obj sg : Z)
    (w : world) :
  match drm_prime_gem_destroy attachments obj sg w with
  | Some cs =>
      exists o dmabuf,
        gem_objects w !! obj = Some o
        /\ attachments !! import_attach o = Some dmabuf
        /\ cs
           = (if decide (sg = NULL) then []
              else [call_dma_buf_unmap_attachment (import_attach o) sg
                      DMA_BIDIRECTIONAL])
             ++ [call_dma_buf_detach dmabuf (import_attach o)]
  | None =>
      gem_objects w !! obj = None
      \/ exists o,
           gem_objects w !! obj = Some o
           /\ attachments !! import_attach o = None
  end.
Proof.
  unfold drm_prime_gem_destroy.
  destruct (gem_objects w !! obj) as [o|] eqn:Halive; simpl; [|by left].
  destruct (attachments !! import_attach o) as [dmabuf|] eqn:Hattach; simpl.
  - exists o, dmabuf. repeat split; try done.
    destruct (Z.eqb_spec sg NULL) as [Hsg|Hsg]; case_decide; done.
  - right. by exists o.
Qed.

Lemma gem_destroy_example :
  drm_prime_gem_destroy Sample.attachments Example.imported 1 Sample.attached
  = Some [call_dma_buf_unmap_attachment Sample.attach 1 DMA_BIDIRECTIONAL;
          call_dma_buf_detach Example.buf Sample.attach]
  /\ drm_prime_gem_destroy Sample.attachments Example.obj NULL Example.session
     = None.
Proof. by vm_compute. Qed.

(** ** What a return value of 0 means *)

Lemma PTR_ERR_zero (p : Z) :
  PTR_ERR p = 0 -> IS_ERR p = false /\ (IS_ERR_OR_NULL p = true -> p = NULL).
Proof.
  unfold PTR_ERR, to_long, IS_ERR_OR_NULL, IS_ERR, IS_ERR_VALUE.
  change (to_ulong (- MAX_ERRNO)) with 4294963201.
  unfold to_ulong, BITS_PER_LONG.
  pose proof (Z.mod_pos_bound p (2 ^ 32) ltac:(lia)) as Hu.
  destruct (Z.ltb_spec (p mod 2 ^ 32) (2 ^ (32 - 1))) as [Hlt|Hge];
    intros Hz; [|lia].
  rewrite Hz. simpl. split; [done|].
  rewrite orb_false_r. intros Hnull. by apply Z.eqb_eq in Hnull.
Qed.

(** X18. An Import returns 0 in two cases only.  Either the identity of
    the descriptor is registered when it returns, under the handle it has
    written to [args] (found by the lookup, or just created); or the
    driver's import callback returned NULL, and then nothing was written
    to [args] and nothing registered. *)
Theorem import_success_cases (dev : drm_device) (e : env)
    (args : drm_prime_handle) (w : world) :
  (drm_prime_fd_to_handle_ioctl dev e args w).1.1 = 0 ->
  let dma_buf := env_dma_buf_get e (args_fd args) in
  let '(ret, out, w') := drm_prime_fd_to_handle_ioctl dev e args w in
  (exists handle,
     out = set_args_handle handle args
     /\ drm_prime_lookup_fd_handle_mapping w' dma_buf = (0, Some handle))
  \/ (exists import,
        prime_import dev = Some import /\ import dma_buf = NULL
        /\ out = args /\ prime_head w' = prime_head w).
Proof.
  cbv zeta.
  destruct (drm_core_check_feature dev DRIVER_PRIME) eqn:Hfeature;
    [|unfold drm_prime_fd_to_handle_ioctl; by rewrite Hfeature].
  destruct (prime_import dev) as [import|] eqn:Hcallback;
    [|unfold drm_prime_fd_to_handle_ioctl; by rewrite Hfeature, Hcallback].
  destruct (IS_ERR (env_dma_buf_get e (args_fd args))) eqn:Hresolved.
  { walk_with ltac:(rewrite ?Hfeature, ?Hcallback, ?Hresolved).
    intros Hz. destruct (PTR_ERR_zero _ Hz) as [Hno _]. congruence. }
  destruct (lookup_members_cases (prime_head w)
              (env_dma_buf_get e (args_fd args))) as [Hmiss|[handle Hhit]].
  2:{ rewrite (import_hit dev e args w import _ Hfeature Hcallback eq_refl
                 Hresolved handle Hhit).
      intros _. left. exists handle. split; [done|].
      unfold drm_prime_lookup_fd_handle_mapping. unfold_collaborators.
      by rewrite Hresolved. }
  destruct (IS_ERR_OR_NULL (import (env_dma_buf_get e (args_fd args))))
    eqn:Hobj.
  { rewrite (import_fail_driver dev e args w import _ Hfeature Hcallback
               eq_refl Hresolved _ Hmiss eq_refl Hobj).
    simpl. intros Hz. right. exists import.
    destruct (PTR_ERR_zero _ Hz) as [_ Hnull].
    repeat split; [by apply Hnull|].
    unfold_collaborators. by rewrite Hresolved. }
  destruct (env_gem_handle_create e
              (import (env_dma_buf_get e (args_fd args))))
    as [ret handle] eqn:Hcreate.
  destruct (decide (ret = 0)) as [->|Hret].
  2:{ rewrite (import_fail_handle dev e args w import _ Hfeature Hcallback
                 eq_refl Hresolved _ Hmiss eq_refl ret handle Hobj Hcreate
                 Hret). simpl. intros Hz. done. }
  destruct (env_kmalloc e) eqn:Hmem.
  - rewrite (import_new dev e args w import _ Hfeature Hcallback eq_refl
               Hresolved _ Hmiss eq_refl handle Hobj Hcreate Hmem).
    intros _. left. exists handle. split; [done|].
    unfold drm_prime_lookup_fd_handle_mapping. simpl. by rewrite Z.eqb_refl.
  - rewrite (import_fail_insert dev e args w import _ Hfeature Hcallback
               eq_refl Hresolved _ Hmiss eq_refl handle Hobj Hcreate Hmem).
    simpl. intros Hz. discriminate Hz.
Qed.

Lemma import_success_cases_witness :
  (drm_prime_fd_to_handle_ioctl Example.driver (Example.answers true)
     Example.import_args Example.session).1.1 = 0
  /\ exists handle,
       drm_prime_lookup_fd_handle_mapping
         (drm_prime_fd_to_handle_ioctl Example.driver (Example.answers true)
            Example.import_args Example.session).2 Example.buf
       = (0, Some handle).
Proof.
  split; [reflexivity|].
  pose proof (import_success_cases Example.driver (Example.answers true)
                Example.import_args Example.session eq_refl) as H.
  destruct (drm_prime_fd_to_handle_ioctl Example.driver
              (Example.answers true) Example.import_args Example.session)
    as [[ret out] w'].
  destruct H as [(handle & _ & Hlook)|(import & Hcb & Hnull & _)].
  - by exists handle.
  - inversion Hcb; subst. discriminate Hnull.
Defined.

(** X19. An Export returns 0 in two cases only.  Either [args->fd] holds
    what [dma_buf_fd] answered for the pointer that is in
    [obj->export_dma_buf] when it returns, which is not NULL; or the
    driver's export callback returned NULL, and then nothing was written
    to [args]. *)
Theorem export_success_cases (dev : drm_device) (e : env)
    (args : drm_prime_handle) (w : world) :
  match drm_prime_handle_to_fd_ioctl dev e args w with
  | Some (ret, out, w') =>
      ret = 0 ->
      (exists obj o,
         object_idr w !! args_handle args = Some obj
         /\ gem_objects w' !! obj = Some o
         /\ export_dma_buf o <> NULL
         /\ out = set_args_fd (env_dma_buf_fd e (export_dma_buf o)) args)
      \/ (exists export obj,
            prime_export dev = Some export
            /\ object_idr w !! args_handle args = Some obj
            /\ export obj (args_flags args) = NULL
            /\ out = args)
  | None => True
  end.
Proof.
  export_paths dev e args w; try done.
  - intros Hz. right. exists export, obj.
    destruct (PTR_ERR_zero _ Hz) as [_ Hnull]. repeat split; try done.
    by apply Hnull.
  - intros _. left. exists obj. eexists. split; [done|].
    destruct (_ <? 0); simpl; rewrite lookup_insert_eq;
      (split; [reflexivity|]); simpl; (split; [|done]);
      intros Hn; by rewrite Hn, IS_ERR_OR_NULL_NULL in Hbuf.
  - intros _. left. exists obj. eexists. split; [done|].
    destruct (_ <? 0); simpl; rewrite lookup_alter_eq, Halive; simpl;
      (split; [reflexivity|]); by destruct o.
Qed.
